(** * Photo watermark tool: a shallow embedding of [watermark_tool.py]

    The development follows the methods of class [WatermarkTool]:
    [get_image_files], [get_exif_date], [get_user_preferences],
    [calculate_watermark_position], [add_watermark] and [process_images],
    and the function [main].  Integers are [Z]; a Python [str] is kept as
    the bytes of its UTF-8 form and decoded to code points where the
    program looks at its characters.  The effects of the tool (printing,
    creating a directory, saving a file, raising an exception) run in a
    small writer-and-exception monad; the dialogue with the user runs at
    the console, over the lines of standard input.  The file system, the
    clock, the imaging library and the way the platform prints are a
    parameter, the [World].  The parsing of the command line is not
    modelled. *)

From Stdlib Require Import ZArith List String Ascii Bool Lia.
Import ListNotations.

Local Open Scope string_scope.
Local Open Scope Z_scope.

(** ** [calculate_watermark_position] *)

(** The local [margin = 20] of [calculate_watermark_position]. *)
Definition margin : Z := 20.

(** [calculate_watermark_position(img_width, img_height, text_width,
    text_height, position)].  The [if]/[elif] chain compares [position]
    with the five anchor strings in source order; [//] is floor division,
    which is [Z.div] for the positive divisor 2. *)
Definition calculate_watermark_position
    (img_width img_height text_width text_height : Z) (position : string)
  : Z * Z :=
  if String.eqb position "top-left" then
    (margin, margin)
  else if String.eqb position "top-right" then
    (img_width - text_width - margin, margin)
  else if String.eqb position "bottom-left" then
    (margin, img_height - text_height - margin)
  else if String.eqb position "bottom-right" then
    (img_width - text_width - margin, img_height - text_height - margin)
  else if String.eqb position "center" then
    ((img_width - text_width) / 2, (img_height - text_height) / 2)
  else
    (margin, img_height - text_height - margin).

(** The anchors that the [if]/[elif] chain recognises. *)
Definition known_anchors : list string :=
  ["top-left"; "top-right"; "bottom-left"; "bottom-right"; "center"].

(** ** Strings and paths *)

(** [str.lower()] on the ASCII letters [A]..[Z]; file names are modelled
    as byte strings, and bytes outside that range are left as they are. *)
Definition lower_char (c : ascii) : ascii :=
  let n := nat_of_ascii c in
  if ((65 <=? n) && (n <=? 90))%nat then ascii_of_nat (n + 32) else c.

Fixpoint lower (s : string) : string :=
  match s with
  | EmptyString => EmptyString
  | String c r => String (lower_char c) (lower r)
  end.

(** [s.endswith(suffix)] for one suffix: [s] is the suffix, or the tail of
    [s] ends with it. *)
Fixpoint endswith (s suffix : string) : bool :=
  String.eqb s suffix ||
  match s with
  | EmptyString => false
  | String _ r => endswith r suffix
  end.

(** [s.endswith(t)] for a tuple [t] of suffixes. *)
Definition endswith_any (s : string) (suffixes : list string) : bool :=
  existsb (endswith s) suffixes.

(** [self.supported_formats] *)
Definition supported_formats : list string :=
  [".jpg"; ".jpeg"; ".png"; ".tiff"; ".bmp"].

Definition is_sep (c : ascii) : bool := Ascii.eqb c "/".

Fixpoint contains_sep (p : string) : bool :=
  match p with
  | EmptyString => false
  | String c r => is_sep c || contains_sep r
  end.

(** [os.path.join(a, b)] of [posixpath]: an absolute [b] replaces [a];
    otherwise [b] is appended, after a separator unless [a] is empty or
    already ends with one. *)
Definition path_join (a b : string) : string :=
  if String.prefix "/" b then b
  else if String.eqb a "" || endswith a "/" then a ++ b
  else a ++ "/" ++ b.

(** [os.path.basename(p)] of [posixpath]: [p[p.rfind('/') + 1:]]. *)
Fixpoint basename (p : string) : string :=
  match p with
  | EmptyString => EmptyString
  | String c r =>
      if contains_sep r then basename r
      else if is_sep c then r
      else String c r
  end.

(** ** Text

    A Python [str] is a sequence of code points.  The model keeps it as
    the bytes of its UTF-8 form, a [string]; a byte that belongs to no
    well-formed sequence stands for the lone surrogate, U+DC80 to U+DCFF,
    by which [os.listdir], [sys.argv] and [os.path] hand such a byte to
    the program (the [surrogateescape] error handler).  [decode] gives
    the code points, for the operations that look at them. *)

Definition within (lo hi c : N) : bool := ((lo <=? c) && (c <=? hi))%N.

(** The lone surrogate that stands for the byte [b]: U+DC00 + [b]. *)
Definition escape (b : N) : N := (56320 + b)%N.

Definition is_escape (c : N) : bool := within 56448 56575 c.

(** The state of the decoder between two bytes: at the start of a
    character, or inside one, with the bytes read of it, the bits
    gathered from them, the number of bytes to come after the next one,
    and the range in which the next one must lie. *)
Inductive Pending : Type :=
| Idle
| Partial (bytes : list N) (bits : N) (more : nat) (lo hi : N).

(** A byte at the start of a character.  The ranges are those of
    well-formed UTF-8: no overlong form, no surrogate, nothing above
    U+10FFFF. *)
Definition lead (b : N) : list N * Pending :=
  if (b <? 128)%N then ([b], Idle)
  else if within 194 223 b then ([], Partial [b] (b - 192) 0 128 191)
  else if (b =? 224)%N then ([], Partial [b] (b - 224) 1 160 191)
  else if (b =? 237)%N then ([], Partial [b] (b - 224) 1 128 159)
  else if within 225 239 b then ([], Partial [b] (b - 224) 1 128 191)
  else if (b =? 240)%N then ([], Partial [b] (b - 240) 2 144 191)
  else if (b =? 244)%N then ([], Partial [b] (b - 240) 2 128 143)
  else if within 241 243 b then ([], Partial [b] (b - 240) 2 128 191)
  else ([escape b], Idle).

(** [bytes.decode("utf-8", "surrogateescape")], byte by byte: a byte that
    does not continue the character under way turns the bytes read of it
    into escapes and is read again as the start of a character. *)
Fixpoint decode_from (p : Pending) (s : string) : list N :=
  match s with
  | EmptyString =>
      match p with
      | Idle => []
      | Partial bytes _ _ _ _ => map escape bytes
      end
  | String a r =>
      let b := N_of_ascii a in
      match p with
      | Idle => let (out, p') := lead b in (out ++ decode_from p' r)%list
      | Partial bytes bits more lo hi =>
          if within lo hi b then
            let bits' := (bits * 64 + (b - 128))%N in
            match more with
            | O => bits' :: decode_from Idle r
            | S more' =>
                decode_from (Partial (bytes ++ [b]) bits' more' 128 191) r
            end
          else
            let (out, p') := lead b in
            (map escape bytes ++ out ++ decode_from p' r)%list
      end
  end.

Definition decode (s : string) : list N := decode_from Idle s.

(** The bytes of one code point: an escape gives its byte back, any
    other code point its UTF-8 form. *)
Definition encode_char (c : N) : string :=
  let byte (n : N) := ascii_of_N n in
  let tail (n : N) := byte (128 + n mod 64)%N in
  if is_escape c then String (byte (c - 56320)%N) EmptyString
  else if (c <? 128)%N then String (byte c) EmptyString
  else if (c <? 2048)%N then
    String (byte (192 + c / 64)%N) (String (tail c) EmptyString)
  else if (c <? 65536)%N then
    String (byte (224 + c / 4096)%N)
      (String (tail (c / 64)%N) (String (tail c) EmptyString))
  else
    String (byte (240 + c / 262144)%N)
      (String (tail (c / 4096)%N)
         (String (tail (c / 64)%N) (String (tail c) EmptyString))).

(** [str.encode("utf-8", "surrogateescape")] *)
Fixpoint encode (text : list N) : string :=
  match text with
  | [] => EmptyString
  | c :: r => encode_char c ++ encode r
  end.

(** Whether [s.encode("utf-8")] succeeds with the strict error handler:
    the text holds no escape. *)
Definition encodable_text (text : list N) : bool :=
  forallb (fun c => negb (is_escape c)) text.

Definition encodable (s : string) : bool := encodable_text (decode s).

(** The code points of [str.isspace], which are also those of [\s] in a
    regular expression on [str]: the ASCII blanks and separators, NEL,
    the no-break space and the Unicode spaces and line separators. *)
Definition whitespace (c : N) : bool :=
  within 9 13 c || within 28 32 c || (c =? 133)%N || (c =? 160)%N
  || (c =? 5760)%N || within 8192 8202 c || (c =? 8232)%N || (c =? 8233)%N
  || (c =? 8239)%N || (c =? 8287)%N || (c =? 12288)%N.

(** The code points of the digit zero in the scripts of Unicode 14
    (general category Nd); the nine that follow each are its digits one
    to nine. *)
Definition decimal_zeros : list N :=
  [48; 1632; 1776; 1984; 2406; 2534; 2662; 2790; 2918; 3046; 3174; 3302;
   3430; 3558; 3664; 3792; 3872; 4160; 4240; 6112; 6160; 6470; 6608; 6784;
   6800; 6992; 7088; 7232; 7248; 42528; 43216; 43264; 43472; 43504; 43600;
   44016; 65296; 66720; 68912; 69734; 69872; 69942; 70096; 70384; 70736;
   70864; 71248; 71360; 71472; 71904; 72016; 72784; 73040; 73120; 92768;
   92864; 93008; 120782; 120792; 120802; 120812; 120822; 123200; 123632;
   125264; 130032]%N.

(** The value of a decimal digit, [None] for any other code point. *)
Definition decimal_value (c : N) : option Z :=
  match find (fun zero => within zero (zero + 9) c) decimal_zeros with
  | Some zero => Some (Z.of_N (c - zero))
  | None => None
  end.

(** [\d] in a regular expression on [str] *)
Definition is_decimal (c : N) : bool :=
  match decimal_value c with
  | Some _ => true
  | None => false
  end.

(** *** [str.strip()] *)

Fixpoint lstrip (text : list N) : list N :=
  match text with
  | [] => []
  | c :: r => if whitespace c then lstrip r else text
  end.

Fixpoint rstrip (text : list N) : list N :=
  match text with
  | [] => []
  | c :: r =>
      match rstrip r with
      | [] => if whitespace c then [] else [c]
      | r' => c :: r'
      end
  end.

(** [s.strip()]: the white space at both ends removed. *)
Definition strip (s : string) : string :=
  encode (rstrip (lstrip (decode s))).

(** ** [datetime] *)

Definition is_leap (year : Z) : bool :=
  (year mod 4 =? 0) && (negb (year mod 100 =? 0) || (year mod 400 =? 0)).

Definition days_in_month (year month : Z) : Z :=
  if month =? 2 then (if is_leap year then 29 else 28)
  else if (month =? 4) || (month =? 6) || (month =? 9) || (month =? 11)
       then 30
  else 31.

(** The argument checks of the [datetime] constructor: [MINYEAR = 1],
    [MAXYEAR = 9999], a month in 1..12, a day of that month, and a time
    of day. *)
Definition check_datetime_args (year month day hour minute second : Z)
  : bool :=
  (1 <=? year) && (year <=? 9999) &&
  (1 <=? month) && (month <=? 12) &&
  (1 <=? day) && (day <=? days_in_month year month) &&
  (0 <=? hour) && (hour <=? 23) &&
  (0 <=? minute) && (minute <=? 59) &&
  (0 <=? second) && (second <=? 59).

(** A [datetime] object: its fields always satisfy the constructor's
    checks. *)
Record datetime : Type := mk_datetime {
  dt_year : Z;
  dt_month : Z;
  dt_day : Z;
  dt_hour : Z;
  dt_minute : Z;
  dt_second : Z;
  dt_valid :
    check_datetime_args dt_year dt_month dt_day dt_hour dt_minute dt_second
    = true
}.

(** [datetime(year, month, day, hour, minute, second)]; [None] stands for
    the [ValueError] of a failed check. *)
Definition datetime_new (year month day hour minute second : Z)
  : option datetime :=
  match check_datetime_args year month day hour minute second as b
        return check_datetime_args year month day hour minute second = b
               -> option datetime
  with
  | true => fun pf => Some (mk_datetime year month day hour minute second pf)
  | false => fun _ => None
  end eq_refl.

Definition is_digit (c : ascii) : bool :=
  let n := nat_of_ascii c in ((48 <=? n) && (n <=? 57))%nat.

(** The decimal digit of the units of [z]. *)
Definition digit_of (z : Z) : ascii :=
  ascii_of_nat (48 + Z.to_nat (z mod 10)).

Definition pad2 (z : Z) : string :=
  String (digit_of (z / 10)) (String (digit_of z) EmptyString).

Definition pad4 (z : Z) : string :=
  String (digit_of (z / 1000)) (String (digit_of (z / 100)) (pad2 z)).

(** The decimal numeral of a year in 1..9999, without padding. *)
Definition decimal (z : Z) : string :=
  if z <? 10 then String (digit_of z) EmptyString
  else if z <? 100 then pad2 z
  else if z <? 1000 then String (digit_of (z / 100)) (pad2 z)
  else pad4 z.

(** [date_obj.strftime("%Y-%m-%d")].  The format is carried out by the C
    library of the platform: the month and the day are two digits
    everywhere; the year is padded to four digits by some libraries
    ([pads_year]) and printed as it is by others, glibc among them. *)
Definition strftime_ymd (pads_year : bool) (date_obj : datetime) : string :=
  (if pads_year then pad4 (dt_year date_obj)
   else decimal (dt_year date_obj))
  ++ "-" ++ pad2 (dt_month date_obj) ++ "-" ++ pad2 (dt_day date_obj).

(** The shape [YYYY-MM-DD]: ten characters, digits around two hyphens. *)
Definition is_iso_date (s : string) : bool :=
  match list_ascii_of_string s with
  | [y1; y2; y3; y4; h1; m1; m2; h2; d1; d2] =>
      is_digit y1 && is_digit y2 && is_digit y3 && is_digit y4 &&
      Ascii.eqb h1 "-" && is_digit m1 && is_digit m2 &&
      Ascii.eqb h2 "-" && is_digit d1 && is_digit d2
  | _ => false
  end.

(** *** [datetime.strptime(value, "%Y:%m:%d %H:%M:%S")]

    [_strptime] turns the format into a regular expression, one group of
    ordered alternatives per directive, the literal [:] between them, and
    [\s+] for the blank; it matches the value from its start with
    backtracking, refuses a value of which a part is left over, and hands
    the six integers to the [datetime] constructor.  The value is a
    [str], so [\d] and [\s] are the Unicode classes. *)

Inductive char_class : Type :=
| Digit
| Range (lo hi : ascii).

Definition class_matches (k : char_class) (c : N) : bool :=
  match k with
  | Digit => is_decimal c
  | Range lo hi => within (N_of_ascii lo) (N_of_ascii hi) c
  end.

Inductive regex_item : Type :=
| Group (alternatives : list (list char_class))
| Lit (c : ascii)
| Spaces.

(** One alternative against the start of [s]: the matched text and the
    rest. *)
Fixpoint match_classes (ks : list char_class) (s : list N)
  : option (list N * list N) :=
  match ks with
  | [] => Some ([], s)
  | k :: ks' =>
      match s with
      | c :: r =>
          if class_matches k c then
            match match_classes ks' r with
            | Some (m, rest) => Some (c :: m, rest)
            | None => None
            end
          else None
      | [] => None
      end
  end.

(** The remainders left by [\s+], the longest run of blanks first. *)
Fixpoint spaces_splits (s : list N) : list (list N) :=
  match s with
  | c :: r => if whitespace c then (spaces_splits r ++ [r])%list else []
  | [] => []
  end.

Fixpoint first_some {A B : Type} (f : A -> option B) (l : list A)
  : option B :=
  match l with
  | [] => None
  | a :: l' => match f a with Some b => Some b | None => first_some f l' end
  end.

(** Records the text of a group in front of the groups matched after
    it. *)
Definition push (text : list N) (r : option (list (list N) * list N))
  : option (list (list N) * list N) :=
  match r with
  | Some (groups, rest) => Some (text :: groups, rest)
  | None => None
  end.

(** Backtracking match of a sequence of items from the start of [s]: the
    texts of the groups, in order, and the unmatched rest. *)
Fixpoint match_items (items : list regex_item) (s : list N)
  : option (list (list N) * list N) :=
  match items with
  | [] => Some ([], s)
  | Lit c :: k =>
      match s with
      | c' :: r => if (N_of_ascii c =? c')%N then match_items k r else None
      | [] => None
      end
  | Spaces :: k => first_some (fun r => match_items k r) (spaces_splits s)
  | Group alternatives :: k =>
      first_some
        (fun alt =>
           match match_classes alt s with
           | Some (m, r) => push m (match_items k r)
           | None => None
           end)
        alternatives
  end.

Definition one (c : ascii) : char_class := Range c c.

(** [(?P<Y>\d\d\d\d)] *)
Definition re_Y : regex_item := Group [[Digit; Digit; Digit; Digit]].
(** [(?P<m>1[0-2]|0[1-9]|[1-9])] *)
Definition re_m : regex_item :=
  Group [[one "1"; Range "0" "2"]; [one "0"; Range "1" "9"]; [Range "1" "9"]].
(** [(?P<d>3[0-1]|[1-2]\d|0[1-9]|[1-9]| [1-9])] *)
Definition re_d : regex_item :=
  Group [[one "3"; Range "0" "1"]; [Range "1" "2"; Digit];
         [one "0"; Range "1" "9"]; [Range "1" "9"];
         [one " "; Range "1" "9"]].
(** [(?P<H>2[0-3]|[0-1]\d|\d)] *)
Definition re_H : regex_item :=
  Group [[one "2"; Range "0" "3"]; [Range "0" "1"; Digit]; [Digit]].
(** [(?P<M>[0-5]\d|\d)] *)
Definition re_M : regex_item := Group [[Range "0" "5"; Digit]; [Digit]].
(** [(?P<S>6[0-1]|[0-5]\d|\d)] *)
Definition re_S : regex_item :=
  Group [[one "6"; Range "0" "1"]; [Range "0" "5"; Digit]; [Digit]].

(** The expression compiled from ["%Y:%m:%d %H:%M:%S"]. *)
Definition exif_format_regex : list regex_item :=
  [re_Y; Lit ":"; re_m; Lit ":"; re_d; Spaces;
   re_H; Lit ":"; re_M; Lit ":"; re_S].

(** [int(text)] on the text of a group: decimal digits of any script, a
    leading blank skipped. *)
Fixpoint int_from (acc : Z) (s : list N) : Z :=
  match s with
  | [] => acc
  | c :: r =>
      match decimal_value c with
      | Some value => int_from (10 * acc + value) r
      | None => int_from acc r
      end
  end.

Definition int (s : list N) : Z := int_from 0 s.

(** How [datetime.strptime] ends: with a [datetime], or with one of its
    [ValueError]s.  The text of the error quotes the value with [repr],
    except for the part left over, which it holds as it is. *)
Inductive Parse : Type :=
| Parsed (date_obj : datetime)
| NoMatch                           (* time data ... does not match format *)
| Unconverted (rest : list N)       (* unconverted data remains: ... *)
| OutOfRange.                       (* the checks of the date and the time *)

(** [datetime.strptime(data_string, "%Y:%m:%d %H:%M:%S")] on a [str]. *)
Definition strptime_exif (data_string : string) : Parse :=
  match match_items exif_format_regex (decode data_string) with
  | Some ([gY; gm; gd; gH; gM; gS], []) =>
      match
        datetime_new (int gY) (int gm) (int gd) (int gH) (int gM) (int gS)
      with
      | Some date_obj => Parsed date_obj
      | None => OutOfRange
      end
  | Some (_, c :: rest) => Unconverted (c :: rest)
  | _ => NoMatch
  end.

(** *** [datetime.fromtimestamp]

    The local broken-down time of the time stamp gives the fields; the
    seconds it counts from the first day of year 1 are compared with
    those of the time one day earlier, and of one more time when the two
    are less than a day apart, to tell a repeated hour.  A year outside
    1..9999 in any of these is a [ValueError]. *)

(** The days before the first of January of [year]. *)
Definition days_before_year (year : Z) : Z :=
  let y := year - 1 in y * 365 + y / 4 - y / 100 + y / 400.

(** The days of [year] before the first of [month]. *)
Definition days_before_month (year month : Z) : Z :=
  fold_right Z.add 0
    (map (days_in_month year)
       (filter (fun m => m <? month) [1; 2; 3; 4; 5; 6; 7; 8; 9; 10; 11])).

Definition ymd_to_ord (year month day : Z) : Z :=
  days_before_year year + days_before_month year month + day.

(** [utc_to_seconds]: [None] stands for its [ValueError]. *)
Definition utc_to_seconds (year month day hour minute second : Z)
  : option Z :=
  if (1 <=? year) && (year <=? 9999) then
    Some (((ymd_to_ord year month day * 24 + hour) * 60 + minute) * 60
          + second)
  else None.

Definition max_fold_seconds : Z := 24 * 3600.

(** ** Effects *)

(** What the tool prints; every constructor is one [print] of the source,
    with the names interpolated into it.  The text of a caught exception
    is left out of the message; whether it can be printed is part of the
    model where it may hold a value as it is (line 61, the part of a
    [DateTime] value that the parse leaves over), and not where the
    exception quotes its names with [repr], as those of the file system
    and of the imaging library do (lines 43, 197 and 218). *)
Inductive Msg : Type :=
| MsgListdirFailed                                  (* line 43 *)
| MsgExifFailed (image_path : string)               (* line 61 *)
| MsgDefaultFont                                    (* lines 159, 162 *)
| MsgProcessFailed (image_path : string)            (* line 197 *)
| MsgNoImages                                       (* line 205 *)
| MsgFound (count : nat)                            (* line 208 *)
| MsgMakedirsFailed                                 (* line 218 *)
| MsgProcessing (filename watermark_text : string)  (* line 230 *)
| MsgDone                                           (* line 234 *)
| MsgFailed                                         (* line 236 *)
| MsgSummary (success_count total : nat)            (* line 238 *)
| MsgOutputDir (output_dir : string).               (* line 239 *)

(** What a run does to the outside: a line on standard output, a
    directory created, an image file written. *)
Inductive Event : Type :=
| Print (m : Msg)
| MakeDirs (path : string)
| SaveFile (path : string).

(** How a call ends: with a value, or with a raised exception (one of the
    subclasses of [Exception], which is what the handlers of the source
    catch). *)
Inductive Outcome (A : Type) : Type :=
| Return (a : A)
| Raise.

Arguments Return {A} a.
Arguments Raise {A}.

(** A computation is the trace of its events and its outcome.  The events
    performed before an exception stay in the trace. *)
Definition M (A : Type) : Type := list Event * Outcome A.

Definition ret {A : Type} (a : A) : M A := ([], Return a).

Definition raise {A : Type} : M A := ([], Raise).

Definition bind {A B : Type} (m : M A) (f : A -> M B) : M B :=
  match m with
  | (t, Return a) => let (t', o) := f a in ((t ++ t')%list, o)
  | (t, Raise) => (t, Raise)
  end.

(** [try: body / except: handler] *)
Definition try_except {A : Type} (body handler : M A) : M A :=
  match body with
  | (t, Return a) => (t, Return a)
  | (t, Raise) => let (t', o) := handler in ((t ++ t')%list, o)
  end.

Definition emit (e : Event) : M unit := ([e], Return tt).

Definition print (m : Msg) : M unit := emit (Print m).

(** An operation of the environment that returns a value or raises. *)
Definition call {A : Type} (result : option A) : M A :=
  match result with
  | Some a => ret a
  | None => raise
  end.

(** An operation of the environment that completes or raises. *)
Definition attempt (ok : bool) : M unit :=
  if ok then ret tt else raise.

(** How a block that performs no event ends: with a value, or with an
    exception [e], of which the model keeps whether [str(e)] can be
    encoded by the strict error handler. *)
Inductive Try (A : Type) : Type :=
| Value (a : A)
| Except (text_encodable : bool).

Arguments Value {A} a.
Arguments Except {A} text_encodable.

Definition try_bind {A B : Type} (m : Try A) (f : A -> Try B) : Try B :=
  match m with
  | Value a => f a
  | Except text_encodable => Except text_encodable
  end.

(** An operation of the environment within such a block; the text of its
    exception quotes names with [repr], so it can be encoded. *)
Definition try_call {A : Type} (result : option A) : Try A :=
  match result with
  | Some a => Value a
  | None => Except true
  end.

Declare Scope monad_scope.
Delimit Scope monad_scope with monad.
Notation "x <- m ;; k" := (bind m (fun x => k))
  (at level 61, m at next level, right associativity) : monad_scope.
Notation "m ;; k" := (bind m (fun _ => k))
  (at level 61, right associativity) : monad_scope.
Local Open Scope monad_scope.

Definition trace {A : Type} (m : M A) : list Event := fst m.

Definition outcome {A : Type} (m : M A) : Outcome A := snd m.

(** The files written by a trace, in order. *)
Fixpoint saved_files (t : list Event) : list string :=
  match t with
  | [] => []
  | SaveFile path :: t' => path :: saved_files t'
  | _ :: t' => saved_files t'
  end.

(** ** The environment *)

(** A value stored under an EXIF tag. *)
Inductive ExifValue : Type :=
| ExifStr (s : string)
| ExifBytes (b : string)
| ExifInt (n : Z)
| ExifRational (numerator denominator : Z).

(** What the tool observes of an opened image: [img.mode], [img.width],
    [img.height], and the result of [img._getexif()], which raises
    (outer [None]), returns [None] (inner [None]), or returns a
    dictionary, kept as its items in iteration order. *)
Record Image : Type := mk_Image {
  im_mode : string;
  im_width : Z;
  im_height : Z;
  im_getexif : option (option (list (Z * ExifValue)))
}.

Inductive Font : Type :=
| TrueTypeFont (path : string) (size : Z)
| DefaultFont.

Definition RGB : Type := Z * Z * Z.
Definition RGBA : Type := Z * Z * Z * Z.
Definition Box : Type := Z * Z * Z * Z.

(** The drawing and encoding calls of [add_watermark] whose only
    observable result is whether they raise. *)
Inductive PilCall : Type :=
| Call_convert (img : Image) (mode : string)
| Call_Draw (img : Image)
| Call_truetype (font_path : string) (font_size : Z)
| Call_load_default
| Call_new (mode : string) (size : Z * Z) (color : RGBA)
| Call_rectangle (overlay : Image) (box : Box) (fill : RGBA)
| Call_alpha_composite (im1 im2 : Image)
| Call_text (img : Image) (xy : Z * Z) (text : string) (font : Font)
    (fill : RGB)
| Call_save (img : Image) (output_path : string) (quality : Z).

(** Everything the tool asks of the file system, the clock, the imaging
    library and the platform.  An [option] result is [None] when the call
    raises; a [bool] tells whether the call completes. *)
Record World : Type := mk_World {
  os_listdir : string -> option (list string);
  os_makedirs : string -> bool;
  os_path_exists : string -> bool;
  (** the modification time: the whole seconds of the POSIX time stamp,
      as [datetime.fromtimestamp] rounds it *)
  os_path_getmtime : string -> option Z;
  (** the local broken-down time of a time stamp: [tm_year + 1900],
      [tm_mon + 1], [tm_mday], [tm_hour], [tm_min], [tm_sec] *)
  time_localtime : Z -> option (Z * Z * Z * Z * Z * Z);
  datetime_now : datetime;
  (** the table [ExifTags.TAGS], from tag number to tag name *)
  ExifTags_TAGS : Z -> option string;
  Image_open : string -> option Image;
  ImageDraw_textbbox : string -> Font -> option Box;
  pil_ok : PilCall -> bool;
  (** whether [sys.stdout], which encodes as UTF-8, has the error
      handler [strict], as it has on a terminal, rather than
      [surrogateescape], as it has under the C locale *)
  stdout_strict : bool;
  (** whether [strftime] of the C library pads the year to four digits *)
  strftime_pads_year : bool
}.

(** ** The methods of [WatermarkTool] *)

Section Tool.

Variable w : World.

(** *** [get_image_files] *)

(** The body of the [for filename in os.listdir(directory)] loop, with the
    list [image_files] built so far. *)
Fixpoint collect_image_files (directory : string) (filenames : list string)
    (image_files : list string) : list string :=
  match filenames with
  | [] => image_files
  | filename :: rest =>
      if endswith_any (lower filename) supported_formats
      then collect_image_files directory rest
             ((image_files ++ [path_join directory filename])%list)
      else collect_image_files directory rest image_files
  end.

Definition get_image_files (directory : string) : M (list string) :=
  try_except
    (filenames <- call (os_listdir w directory) ;;
     ret (collect_image_files directory filenames []))
    (print MsgListdirFailed ;; ret []).

(** *** [get_exif_date] *)

(** [ExifTags.TAGS.get(tag, tag)]: the name of the tag, or the tag itself
    when the table has no entry for it. *)
Definition tag_name_of (tag : Z) : string + Z :=
  match ExifTags_TAGS w tag with
  | Some name => inl name
  | None => inr tag
  end.

(** [tag_name == text] *)
Definition name_eqb (tag_name : string + Z) (text : string) : bool :=
  match tag_name with
  | inl name => String.eqb name text
  | inr _ => false
  end.

(** [print] of a line into which a name or a text of the environment is
    interpolated; [text_encodable] tells whether all of them can be
    encoded.  When they cannot and the error handler is [strict], the
    call raises [UnicodeEncodeError] and writes nothing. *)
Definition print_text (text_encodable : bool) (m : Msg) : M unit :=
  if negb (stdout_strict w) || text_encodable then print m else raise.

(** [datetime.strptime(value, "%Y:%m:%d %H:%M:%S")] on a stored value: a
    value that is not a [str] raises [TypeError], a [str] that does not
    parse raises [ValueError]. *)
Definition strptime (value : ExifValue) : Try datetime :=
  match value with
  | ExifStr s =>
      match strptime_exif s with
      | Parsed date_obj => Value date_obj
      | Unconverted rest => Except (encodable_text rest)
      | NoMatch | OutOfRange => Except true
      end
  | _ => Except true
  end.

(** [date_obj.strftime("%Y-%m-%d")] on this platform *)
Definition strftime (date_obj : datetime) : string :=
  strftime_ymd (strftime_pads_year w) date_obj.

(** The loop [for tag, value in exif_data.items()]; [Some] is the value
    of the [return] inside it, [None] means the loop ran to its end. *)
Fixpoint scan_exif (items : list (Z * ExifValue)) : Try (option string) :=
  match items with
  | [] => Value None
  | (tag, value) :: rest =>
      let tag_name := tag_name_of tag in
      if name_eqb tag_name "DateTime" then
        try_bind (strptime value) (fun date_obj =>
        Value (Some (strftime date_obj)))
      else scan_exif rest
  end.

(** The body of the first [try] (lines 51 to 59): [Some] is the value it
    returns, [None] means it ran to its end. *)
Definition read_exif_date (image_path : string) : Try (option string) :=
  try_bind (try_call (Image_open w image_path)) (fun img =>
  try_bind (try_call (im_getexif img)) (fun exif_data =>
  match exif_data with
  | Some (item :: items) => scan_exif (item :: items)
  | _ => Value None
  end)).

(** [local]: the seconds from the first day of year 1 to the local time
    of a time stamp. *)
Definition local (t : Z) : option Z :=
  match time_localtime w t with
  | Some (year, month, day, hour, minute, second) =>
      utc_to_seconds year month day hour minute second
  | None => None
  end.

(** [datetime.fromtimestamp(mtime)], with a leap second folded into
    59. *)
Definition fromtimestamp (timet : Z) : M datetime :=
  tm <- call (time_localtime w timet) ;;
  let '(year, month, day, hour, minute, tm_sec) := tm in
  let second := Z.min 59 tm_sec in
  result_seconds <- call (utc_to_seconds year month day hour minute second) ;;
  probe_seconds <- call (local (timet - max_fold_seconds)) ;;
  let transition := result_seconds - probe_seconds - max_fold_seconds in
  (if transition <? 0
   then call (local (timet + transition)) ;; ret tt
   else ret tt) ;;
  call (datetime_new year month day hour minute second).

(** The second [try] (lines 64 to 69), whose bare [except] gives the
    current date. *)
Definition file_date (image_path : string) : M string :=
  try_except
    (mtime <- call (os_path_getmtime w image_path) ;;
     date_obj <- fromtimestamp mtime ;;
     ret (strftime date_obj))
    (ret (strftime (datetime_now w))).

Definition get_exif_date (image_path : string) : M string :=
  returned <-
    match read_exif_date image_path with
    | Value returned => ret returned
    | Except text_encodable =>
        print_text (encodable image_path && text_encodable)
          (MsgExifFailed image_path) ;;
        ret None
    end ;;
  match returned with
  | Some date => ret date
  | None => file_date image_path
  end.

(** *** [add_watermark] *)

Definition pil (c : PilCall) : M unit := attempt (pil_ok w c).

(** [img.convert(mode)] *)
Definition convert (img : Image) (mode : string) : M Image :=
  pil (Call_convert img mode) ;;
  ret (mk_Image mode (im_width img) (im_height img) (im_getexif img)).

Definition font_paths : list string :=
  ["/System/Library/Fonts/Arial.ttf";
   "/System/Library/Fonts/Helvetica.ttc";
   "/Library/Fonts/Arial.ttf"].

(** The loop over [font_paths], left by [break] at the first path that
    exists. *)
Fixpoint first_font (paths : list string) (font_size : Z)
  : M (option Font) :=
  match paths with
  | [] => ret None
  | font_path :: rest =>
      if os_path_exists w font_path then
        pil (Call_truetype font_path font_size) ;;
        ret (Some (TrueTypeFont font_path font_size))
      else first_font rest font_size
  end.

Definition load_default : M Font :=
  pil Call_load_default ;; ret DefaultFont.

(** The inner [try]/[except] that chooses the font. *)
Definition choose_font (font_size : Z) : M Font :=
  try_except
    (font <- first_font font_paths font_size ;;
     match font with
     | Some f => ret f
     | None => f <- load_default ;; print MsgDefaultFont ;; ret f
     end)
    (f <- load_default ;; print MsgDefaultFont ;; ret f).

(** [img.save(output_path, quality=95)]: the file is written when the
    call completes. *)
Definition save (img : Image) (output_path : string) (quality : Z)
  : M unit :=
  pil (Call_save img output_path quality) ;; emit (SaveFile output_path).

(** [Image.new(mode, size, color)]: a fresh image, which has no
    [_getexif]. *)
Definition new_image (mode : string) (size : Z * Z) (color : RGBA)
  : M Image :=
  pil (Call_new mode size color) ;;
  ret (mk_Image mode (fst size) (snd size) None).

(** [Image.alpha_composite(im1, im2)]: a fresh image with the mode and
    size of [im1]. *)
Definition alpha_composite (im1 im2 : Image) : M Image :=
  pil (Call_alpha_composite im1 im2) ;;
  ret (mk_Image (im_mode im1) (im_width im1) (im_height im1) None).

Definition add_watermark (image_path watermark_text : string)
    (font_size : Z) (color : RGB) (position output_path : string)
  : M bool :=
  try_except
    (img <- call (Image_open w image_path) ;;
     img <- (if negb (String.eqb (im_mode img) "RGB")
             then convert img "RGB" else ret img) ;;
     pil (Call_Draw img) ;;
     font <- choose_font font_size ;;
     bbox <- call (ImageDraw_textbbox w watermark_text font) ;;
     let '(b0, b1, b2, b3) := bbox in
     let text_width := b2 - b0 in
     let text_height := b3 - b1 in
     let '(x, y) :=
       calculate_watermark_position
         (im_width img) (im_height img) text_width text_height position in
     overlay <- new_image "RGBA" (im_width img, im_height img)
                  (255, 255, 255, 0) ;;
     pil (Call_Draw overlay) ;;
     let padding := 5 in
     pil (Call_rectangle overlay
            (x - padding, y - padding,
             x + text_width + padding, y + text_height + padding)
            (0, 0, 0, 100)) ;;
     rgba <- convert img "RGBA" ;;
     composite <- alpha_composite rgba overlay ;;
     img <- convert composite "RGB" ;;
     pil (Call_Draw img) ;;
     pil (Call_text img (x, y) watermark_text font color) ;;
     save img output_path 95 ;;
     ret true)
    (print_text (encodable image_path) (MsgProcessFailed image_path) ;;
     ret false).

(** *** [process_images] *)

(** The loop [for image_path in image_files], with the running
    [success_count]. *)
Fixpoint process_each (output_dir : string) (font_size : Z) (color : RGB)
    (position : string) (image_files : list string) (success_count : nat)
  : M nat :=
  match image_files with
  | [] => ret success_count
  | image_path :: rest =>
      let filename := basename image_path in
      let output_path := path_join output_dir filename in
      watermark_text <- get_exif_date image_path ;;
      print_text (encodable filename && encodable watermark_text)
        (MsgProcessing filename watermark_text) ;;
      done <- add_watermark image_path watermark_text font_size color
                position output_path ;;
      if done : bool then
        print MsgDone ;;
        process_each output_dir font_size color position rest
          (S success_count)
      else
        print MsgFailed ;;
        process_each output_dir font_size color position rest success_count
  end.

(** Lines 213 to 239 of [process_images]: what it does once the image
    files and the preferences are known. *)
Definition watermark_files (directory : string) (image_files : list string)
    (font_size : Z) (color : RGB) (position : string) : M unit :=
  let output_dir := path_join directory "_watermark" in
  created <-
    try_except
      (attempt (os_makedirs w output_dir) ;;
       emit (MakeDirs output_dir) ;; ret true)
      (print MsgMakedirsFailed ;; ret false) ;;
  if created : bool then
    success_count <-
      process_each output_dir font_size color position image_files 0%nat ;;
    print (MsgSummary success_count (List.length image_files)) ;;
    print_text (encodable output_dir) (MsgOutputDir output_dir)
  else ret tt.

End Tool.

(** ** The items of the EXIF dictionary *)

(** Whether an item of the EXIF dictionary carries the tag named
    [DateTime]. *)
Definition is_DateTime_item (w : World) (item : Z * ExifValue) : bool :=
  name_eqb (tag_name_of w (fst item)) "DateTime".

(** ** Observations on a run of [process_images] *)

(** The file names announced by the "processing" line of the loop, in
    order. *)
Fixpoint processed_names (t : list Event) : list string :=
  match t with
  | [] => []
  | Print (MsgProcessing filename _) :: t' => filename :: processed_names t'
  | _ :: t' => processed_names t'
  end.

(** A file name is selected when its lower-cased form is some stem
    followed by one of the supported extensions. *)
Definition has_supported_extension (filename : string) : Prop :=
  exists ext stem,
    In ext supported_formats /\ lower filename = stem ++ ext.

Definition selected (filename : string) : bool :=
  endswith_any (lower filename) supported_formats.

Section Run.

Variable w : World.

(** Where the loop of [process_images] writes the result for an input. *)
Definition output_path_of (output_dir image_path : string) : string :=
  path_join output_dir (basename image_path).

(** One turn of the loop of [process_images] (lines 223 to 236), for
    itself: its value tells whether [add_watermark] returned [True]. *)
Definition process_one (output_dir : string) (font_size : Z) (color : RGB)
    (position image_path : string) : M bool :=
  let filename := basename image_path in
  let output_path := path_join output_dir filename in
  watermark_text <- get_exif_date w image_path ;;
  print_text w (encodable filename && encodable watermark_text)
    (MsgProcessing filename watermark_text) ;;
  done <- add_watermark w image_path watermark_text font_size color
            position output_path ;;
  if done : bool then print MsgDone ;; ret true
  else print MsgFailed ;; ret false.

(** An input is successfully processed when its turn of the loop ends
    with [add_watermark] returning [True]. *)
Definition processed_ok (output_dir : string) (font_size : Z) (color : RGB)
    (position image_path : string) : bool :=
  match outcome (process_one output_dir font_size color position image_path)
  with
  | Return true => true
  | _ => false
  end.

(** The inputs whose turn the loop takes: every input up to and with the
    first whose turn ends in an exception, which ends the loop. *)
Fixpoint reached (output_dir : string) (font_size : Z) (color : RGB)
    (position : string) (image_files : list string) : list string :=
  match image_files with
  | [] => []
  | image_path :: rest =>
      match
        outcome (process_one output_dir font_size color position image_path)
      with
      | Return _ =>
          image_path :: reached output_dir font_size color position rest
      | Raise => [image_path]
      end
  end.

End Run.


(** ** Predicates on computations *)

(** A computation that writes no file and announces no file. *)
Definition quiet {A : Type} (m : M A) : Prop :=
  saved_files (trace m) = [] /\ processed_names (trace m) = [].

(** A computation that either returns [True] having written exactly
    [path], or raises having written nothing. *)
Definition ends_in_save (path : string) (m : M bool) : Prop :=
  processed_names (trace m) = [] /\
  ((outcome m = Return true /\ saved_files (trace m) = [path]) \/
   (outcome m = Raise /\ saved_files (trace m) = [])).

(** ** Runs that print without trouble *)

(** The bytes of plain ASCII text. *)
Definition ascii_only (s : string) : bool :=
  forallb (fun a => (N_of_ascii a <? 128)%N) (list_ascii_of_string s).

(** Every line about an image can be printed: standard output is not
    strict, or the path of the image and its file name are valid UTF-8
    and so is every text stored in its EXIF data. *)
Definition prints_cleanly (w : World) (image_path : string) : Prop :=
  stdout_strict w = false \/
  (encodable image_path = true /\
   encodable (basename image_path) = true /\
   forall img items tag s,
     Image_open w image_path = Some img ->
     im_getexif img = Some (Some items) ->
     In (tag, ExifStr s) items ->
     encodable s = true).

(** ** A sample directory

    A directory [photos] with four entries: [a.jpg] carries EXIF data
    with a [DateTime] tag, [orig.jpg] carries only [DateTimeOriginal],
    [PHOTO.JPG] has no EXIF data, [broken.PNG] cannot be opened as an
    image, and [notes.txt] is no image. *)

Definition sample_TAGS (tag : Z) : option string :=
  if tag =? 271 then Some "Make"
  else if tag =? 306 then Some "DateTime"
  else if tag =? 36867 then Some "DateTimeOriginal"
  else if tag =? 36868 then Some "DateTimeDigitized"
  else None.

Definition sample_a : Image :=
  mk_Image "RGB" 1000 800
    (Some (Some [(271, ExifStr "Canon");
                 (36867, ExifStr "2020:01:01 08:00:00");
                 (306, ExifStr "2023:05:17 10:00:00")])).

Definition sample_orig : Image :=
  mk_Image "RGB" 640 480
    (Some (Some [(271, ExifStr "Canon");
                 (36867, ExifStr "2020:01:01 08:00:00")])).

Definition sample_photo : Image := mk_Image "L" 300 200 (Some None).

Definition sample_world : World :=
  {| os_listdir := fun directory =>
       if String.eqb directory "photos"
       then Some ["a.jpg"; "notes.txt"; "broken.PNG"; "orig.jpg"; "PHOTO.JPG"]
       else None;
     os_makedirs := fun _ => true;
     os_path_exists := fun _ => false;
     os_path_getmtime := fun path =>
       if String.eqb path "photos/missing.jpg" then None else Some 1700000000;
     time_localtime := fun t =>
       if t =? 1700000000 then Some (2023, 11, 14, 22, 13, 20)
       else if t =? 1699913600 then Some (2023, 11, 13, 22, 13, 20)
       else None;
     datetime_now := mk_datetime 2024 2 29 12 0 0 eq_refl;
     ExifTags_TAGS := sample_TAGS;
     Image_open := fun path =>
       if String.eqb path "photos/a.jpg" then Some sample_a
       else if String.eqb path "photos/orig.jpg" then Some sample_orig
       else if String.eqb path "photos/PHOTO.JPG" then Some sample_photo
       else None;
     ImageDraw_textbbox := fun _ _ => Some (0, 3, 120, 33);
     pil_ok := fun _ => true;
     stdout_strict := true;
     strftime_pads_year := false |}.

(** ** The menus of [__init__] *)

(** [self.colors]: a dictionary kept as its items in order, from the key
    typed at the prompt to the name shown and the colour.  The names are
    the bytes of their UTF-8 text. *)
Definition colors : list (string * (string * RGB)) :=
  [("1", ("白色", (255, 255, 255)));
   ("2", ("黑色", (0, 0, 0)));
   ("3", ("红色", (255, 0, 0)));
   ("4", ("蓝色", (0, 0, 255)));
   ("5", ("绿色", (0, 255, 0)));
   ("6", ("黄色", (255, 255, 0)))].

(** [self.positions] *)
Definition positions : list (string * (string * string)) :=
  [("1", ("左上角", "top-left"));
   ("2", ("左下角", "bottom-left"));
   ("3", ("右上角", "top-right"));
   ("4", ("右下角", "bottom-right"));
   ("5", ("中间", "center"))].

(** [d[key]] for [key in d]; [None] when the key is absent. *)
Fixpoint dict_get {V : Type} (key : string) (d : list (string * V))
  : option V :=
  match d with
  | [] => None
  | (k, v) :: d' => if String.eqb key k then Some v else dict_get key d'
  end.

(** ** The console *)

(** What the dialogue writes: the prompt of an [input] call or a line
    printed by [get_user_preferences] or [main]. *)
Inductive Said : Type :=
| SaySettings                                   (* line 73 *)
| AskFontSize                                   (* line 78 *)
| SayFontSizeRange                              (* line 82 *)
| SayInvalidNumber                              (* line 84 *)
| SayColorOptions                               (* line 87 *)
| SayOption (key name : string)                 (* lines 89, 102 *)
| AskColor                                      (* line 92 *)
| SayInvalidColor                               (* line 97 *)
| SayPositionOptions                            (* line 100 *)
| AskPosition                                   (* line 105 *)
| SayInvalidPosition                            (* line 110 *)
| AskDirectory                                  (* line 251 *)
| SayNoSuchDirectory (directory : string)       (* line 255 *)
| SayNotADirectory (directory : string).        (* line 259 *)

(** The output of the whole program: the events of the tool and the
    lines of the dialogue, in the order they happen. *)
Inductive Output : Type :=
| Tool (e : Event)
| Say (s : Said).

(** The exceptions that leave the program: the [EOFError] of [input] at
    the end of the input, the [SystemExit] of [sys.exit], any exception
    raised by the tool, and the [UnicodeEncodeError] of a [print] of
    [main]. *)
Inductive Exception : Type :=
| EOFError
| SystemExit (code : Z)
| ToolError
| UnicodeEncodeError.

Inductive Ending (A : Type) : Type :=
| Done (a : A)
| Uncaught (e : Exception).

Arguments Done {A} a.
Arguments Uncaught {A} e.

(** A computation at the console takes the lines still to be read from
    standard input and gives its output, its ending and the lines it
    leaves unread. *)
Definition Console (A : Type) : Type :=
  list string -> list Output * Ending A * list string.

Definition console_ret {A : Type} (a : A) : Console A :=
  fun lines => ([], Done a, lines).

Definition console_bind {A B : Type} (m : Console A) (f : A -> Console B)
  : Console B :=
  fun lines =>
    match m lines with
    | (out, Done a, rest) =>
        let '(out', e, rest') := f a rest in ((out ++ out')%list, e, rest')
    | (out, Uncaught e, rest) => (out, Uncaught e, rest)
    end.

(** [print] of a line of the dialogue *)
Definition say (s : Said) : Console unit :=
  fun lines => ([Say s], Done tt, lines).

(** [input(prompt)]: writes the prompt, then returns the next line or
    raises [EOFError] when there is none. *)
Definition input (prompt : Said) : Console string :=
  fun lines =>
    match lines with
    | line :: rest => ([Say prompt], Done line, rest)
    | [] => ([Say prompt], Uncaught EOFError, [])
    end.

(** [sys.exit(code)] *)
Definition sys_exit {A : Type} (code : Z) : Console A :=
  fun lines => ([], Uncaught (SystemExit code), lines).

(** A computation of the tool run at the console: it reads no input. *)
Definition lift {A : Type} (m : M A) : Console A :=
  fun lines =>
    match m with
    | (t, Return a) => (map Tool t, Done a, lines)
    | (t, Raise) => (map Tool t, Uncaught ToolError, lines)
    end.

Declare Scope console_scope.
Delimit Scope console_scope with console.
Notation "x <- m ;; k" := (console_bind m (fun x => k))
  (at level 61, m at next level, right associativity) : console_scope.
Notation "m ;; k" := (console_bind m (fun _ => k))
  (at level 61, right associativity) : console_scope.

(** The events of the tool within an output. *)
Fixpoint tool_events (out : list Output) : list Event :=
  match out with
  | [] => []
  | Tool e :: out' => e :: tool_events out'
  | Say _ :: out' => tool_events out'
  end.

(** The number of prompts within an output. *)
Fixpoint prompts (out : list Output) : nat :=
  match out with
  | [] => 0%nat
  | Say AskFontSize :: out' | Say AskColor :: out' | Say AskPosition :: out'
  | Say AskDirectory :: out' => S (prompts out')
  | _ :: out' => prompts out'
  end.

(** Output written before the output of a computation that follows. *)
Definition after {A : Type} (before : list Output)
    (r : list Output * Ending A * list string)
  : list Output * Ending A * list string :=
  let '(out, e, rest) := r in ((before ++ out)%list, e, rest).

(** ** [get_user_preferences] and [main] *)

Section Console_tool.

(** The built-in [int] on a [str]; [None] stands for its [ValueError]. *)
Variable py_int : string -> option Z.

(** [os.path.isdir] *)
Variable os_path_isdir : string -> bool.

Variable w : World.

Local Open Scope console_scope.

(** The first [while True] loop: each turn reads one line; a line that
    is no integer and an integer outside 10..200 are answered with a
    message and a new turn. *)
Fixpoint ask_font_size (lines : list string)
  : list Output * Ending Z * list string :=
  match lines with
  | [] => ([Say AskFontSize], Uncaught EOFError, [])
  | line :: rest =>
      match py_int line with
      | Some font_size =>
          if (10 <=? font_size) && (font_size <=? 200)
          then ([Say AskFontSize], Done font_size, rest)
          else after [Say AskFontSize; Say SayFontSizeRange]
                 (ask_font_size rest)
      | None =>
          after [Say AskFontSize; Say SayInvalidNumber] (ask_font_size rest)
      end
  end.

(** The second loop: a line that is a key of [self.colors] chooses the
    colour. *)
Fixpoint ask_color (lines : list string)
  : list Output * Ending RGB * list string :=
  match lines with
  | [] => ([Say AskColor], Uncaught EOFError, [])
  | color_choice :: rest =>
      match dict_get color_choice colors with
      | Some (_, color) => ([Say AskColor], Done color, rest)
      | None => after [Say AskColor; Say SayInvalidColor] (ask_color rest)
      end
  end.

(** The third loop: a line that is a key of [self.positions] chooses the
    anchor. *)
Fixpoint ask_position (lines : list string)
  : list Output * Ending string * list string :=
  match lines with
  | [] => ([Say AskPosition], Uncaught EOFError, [])
  | position_choice :: rest =>
      match dict_get position_choice positions with
      | Some (_, position) => ([Say AskPosition], Done position, rest)
      | None =>
          after [Say AskPosition; Say SayInvalidPosition] (ask_position rest)
      end
  end.

(** [print] of a line of the dialogue into which a name is interpolated;
    it raises as [print_text] does. *)
Definition say_text (text_encodable : bool) (s : Said) : Console unit :=
  if negb (stdout_strict w) || text_encodable then say s
  else fun lines => ([], Uncaught UnicodeEncodeError, lines).

(** The loops [for key, (name, _) in d.items(): print(...)]. *)
Definition say_options {V : Type} (d : list (string * (string * V)))
  : Console unit :=
  fun lines =>
    (map (fun item => Say (SayOption (fst item) (fst (snd item)))) d,
     Done tt, lines).

Definition get_user_preferences : Console (Z * RGB * string) :=
  say SaySettings ;;
  font_size <- ask_font_size ;;
  say SayColorOptions ;;
  say_options colors ;;
  color <- ask_color ;;
  say SayPositionOptions ;;
  say_options positions ;;
  position <- ask_position ;;
  console_ret (font_size, color, position).

(** [process_images], at the console: the tool's own steps and, in its
    place at line 211, the dialogue of [get_user_preferences]. *)
Definition process_images_console (directory : string) : Console unit :=
  image_files <- lift (get_image_files w directory) ;;
  match image_files with
  | [] => lift (print MsgNoImages)
  | _ :: _ =>
      lift (print (MsgFound (List.length image_files))) ;;
      preferences <- get_user_preferences ;;
      let '(font_size, color, position) := preferences in
      lift (watermark_files w directory image_files font_size color
              position)
  end.

(** [main], from the parsed command line on: [arg_directory] is
    [args.directory], [None] when the argument is absent. *)
Definition main (arg_directory : option string) : Console unit :=
  directory <-
    match arg_directory with
    | Some (String c r) => console_ret (String c r)
    | _ => line <- input AskDirectory ;; console_ret (strip line)
    end ;;
  if negb (os_path_exists w directory) then
    say_text (encodable directory) (SayNoSuchDirectory directory) ;;
    sys_exit 1
  else if negb (os_path_isdir directory) then
    say_text (encodable directory) (SayNotADirectory directory) ;;
    sys_exit 1
  else process_images_console directory.

End Console_tool.

(** A reading of plain decimal numerals, for the sample runs. *)
Definition sample_int (s : string) : option Z :=
  match s with
  | EmptyString => None
  | _ => if forallb is_digit (list_ascii_of_string s)
         then Some (int (decode s)) else None
  end.

Definition sample_isdir (path : string) : bool := String.eqb path "photos".

(** ** What the dialogue accepts *)

(** A line is an acceptable font size when [int] reads it and the value
    lies in 10..200. *)
Definition accept_font_size (py_int : string -> option Z) (line : string)
  : option Z :=
  match py_int line with
  | Some font_size =>
      if (10 <=? font_size) && (font_size <=? 200) then Some font_size
      else None
  | None => None
  end.

(** A line is an acceptable colour or anchor when it is a key of the
    menu. *)
Definition accept_color (line : string) : option RGB :=
  option_map snd (dict_get line colors).

Definition accept_position (line : string) : option string :=
  option_map snd (dict_get line positions).

(** A line the loop answers with a complaint. *)
Definition rejected {A : Type} (accept : string -> option A)
    (line : string) : Prop :=
  accept line = None.

(** ** More sample environments *)

(** The sample directory, known to [os.path.exists]. *)
Definition sample_shell : World :=
  {| os_listdir := os_listdir sample_world;
     os_makedirs := os_makedirs sample_world;
     os_path_exists := fun path =>
       String.eqb path "photos" || String.eqb path "notes.txt";
     os_path_getmtime := os_path_getmtime sample_world;
     time_localtime := time_localtime sample_world;
     datetime_now := datetime_now sample_world;
     ExifTags_TAGS := ExifTags_TAGS sample_world;
     Image_open := Image_open sample_world;
     ImageDraw_textbbox := ImageDraw_textbbox sample_world;
     pil_ok := pil_ok sample_world;
     stdout_strict := stdout_strict sample_world;
     strftime_pads_year := strftime_pads_year sample_world |}.

(** The sample directory on a read-only volume: no directory can be
    created; and a second directory, [texts], that holds no image. *)
Definition sample_readonly : World :=
  {| os_listdir := fun directory =>
       if String.eqb directory "texts" then Some ["notes.txt"; "a.jpg.bak"]
       else os_listdir sample_world directory;
     os_makedirs := fun _ => false;
     os_path_exists := os_path_exists sample_world;
     os_path_getmtime := os_path_getmtime sample_world;
     time_localtime := time_localtime sample_world;
     datetime_now := datetime_now sample_world;
     ExifTags_TAGS := ExifTags_TAGS sample_world;
     Image_open := Image_open sample_world;
     ImageDraw_textbbox := ImageDraw_textbbox sample_world;
     pil_ok := pil_ok sample_world;
     stdout_strict := stdout_strict sample_world;
     strftime_pads_year := strftime_pads_year sample_world |}.

(** A directory [old] whose entries were named in Latin-1: in
    [caf\351.jpg] the byte 233 is an e with an acute accent there and no
    character in UTF-8.  That file cannot be opened as an image; [ok.jpg]
    beside it is an image without EXIF data. *)
Definition cafe_jpg : string := "caf" ++ String "233" ".jpg".

Definition sample_legacy : World :=
  {| os_listdir := fun directory =>
       if String.eqb directory "old" then Some [cafe_jpg; "ok.jpg"]
       else None;
     os_makedirs := os_makedirs sample_world;
     os_path_exists := os_path_exists sample_world;
     os_path_getmtime := os_path_getmtime sample_world;
     time_localtime := time_localtime sample_world;
     datetime_now := datetime_now sample_world;
     ExifTags_TAGS := ExifTags_TAGS sample_world;
     Image_open := fun path =>
       if String.eqb path "old/ok.jpg" then Some sample_photo else None;
     ImageDraw_textbbox := ImageDraw_textbbox sample_world;
     pil_ok := pil_ok sample_world;
     stdout_strict := true;
     strftime_pads_year := false |}.

(** Files with early dates, in the time zone UTC: [first.jpg] was
    modified at the first midnight of year 1, [summer.jpg] on the 15th of
    June 999 at noon, [tenth.jpg] carries a [DateTime] of the year 999;
    none but the last carries EXIF data. *)
Definition sample_tenth : Image :=
  mk_Image "RGB" 640 480 (Some (Some [(306, ExifStr "0999:01:01 00:00:00")])).

Definition sample_early : World :=
  {| os_listdir := os_listdir sample_world;
     os_makedirs := os_makedirs sample_world;
     os_path_exists := os_path_exists sample_world;
     os_path_getmtime := fun path =>
       if String.eqb path "first.jpg" then Some (-62135596800)
       else if String.eqb path "summer.jpg" then Some (-30627460800)
       else None;
     time_localtime := fun t =>
       if t =? -62135596800 then Some (1, 1, 1, 0, 0, 0)
       else if t =? -62135683200 then Some (0, 12, 31, 0, 0, 0)
       else if t =? -30627460800 then Some (999, 6, 15, 12, 0, 0)
       else if t =? -30627547200 then Some (999, 6, 14, 12, 0, 0)
       else None;
     datetime_now := datetime_now sample_world;
     ExifTags_TAGS := ExifTags_TAGS sample_world;
     Image_open := fun path =>
       if String.eqb path "tenth.jpg" then Some sample_tenth
       else Some sample_photo;
     ImageDraw_textbbox := ImageDraw_textbbox sample_world;
     pil_ok := pil_ok sample_world;
     stdout_strict := true;
     strftime_pads_year := false |}.

(** ** White space at the ends of a text *)

(** A text of white space only. *)
Definition blank (text : list N) : bool := forallb whitespace text.

Definition first_char (text : list N) : option N := hd_error text.

Fixpoint last_char (text : list N) : option N :=
  match text with
  | [] => None
  | [c] => Some c
  | _ :: r => last_char r
  end.

(** No white space at either end. *)
Definition trimmed (text : list N) : Prop :=
  (forall c, first_char text = Some c -> whitespace c = false) /\
  (forall c, last_char text = Some c -> whitespace c = false).

(** * Theorems *)

(** ** Placement *)

(** C3: with the margin fixed at 20, the calculator returns
    [(margin, margin)] for top-left, [(W - w - margin, margin)] for
    top-right, [(margin, H - h - margin)] for bottom-left,
    [(W - w - margin, H - h - margin)] for bottom-right and
    [((W - w) // 2, (H - h) // 2)] for center; and the call with
    W=1000, H=800, w=120, h=30 at bottom-right gives (860, 750).  The
    equations hold for all integers, so in particular for the non-negative
    dimensions of the claim. *)
Theorem placement_formulas :
  margin = 20 /\
  (forall W H w h : Z,
      calculate_watermark_position W H w h "top-left" = (margin, margin) /\
      calculate_watermark_position W H w h "top-right"
        = (W - w - margin, margin) /\
      calculate_watermark_position W H w h "bottom-left"
        = (margin, H - h - margin) /\
      calculate_watermark_position W H w h "bottom-right"
        = (W - w - margin, H - h - margin) /\
      calculate_watermark_position W H w h "center"
        = ((W - w) / 2, (H - h) / 2)) /\
  calculate_watermark_position 1000 800 120 30 "bottom-right" = (860, 750).
Proof.
  split; [reflexivity|]. split; [|reflexivity].
  intros W H w h. repeat split; reflexivity.
Qed.

(** C4: an anchor outside the five recognised strings gets the
    bottom-left result for the same dimensions. *)
Theorem placement_unrecognized_is_bottom_left :
  forall (W H w h : Z) (position : string),
    ~ In position known_anchors ->
    calculate_watermark_position W H w h position
    = calculate_watermark_position W H w h "bottom-left".
Proof.
  intros W H w h position Hnot.
  unfold calculate_watermark_position.
  repeat match goal with
  | |- context [String.eqb position ?a] =>
      destruct (String.eqb_spec position a) as [->|_];
      [exfalso; apply Hnot; simpl; tauto|]
  end.
  reflexivity.
Qed.

Lemma placement_unrecognized_is_bottom_left_witness :
  ~ In "middle" known_anchors /\
  calculate_watermark_position 1000 800 120 30 "middle"
  = calculate_watermark_position 1000 800 120 30 "bottom-left".
Proof.
  assert (Hn : ~ In "middle" known_anchors).
  { simpl. intros [H|[H|[H|[H|[H|[]]]]]]; discriminate H. }
  split; [exact Hn|].
  apply (placement_unrecognized_is_bottom_left 1000 800 120 30 "middle" Hn).
Defined.

(** C5: there is no clamping.  The right-hand anchors return
    [W - w - margin] as the x-coordinate and the bottom anchors return
    [H - h - margin] as the y-coordinate whatever their sign, and there are
    non-negative dimensions with [w + 2*margin > W] (respectively
    [h + 2*margin > H]) at which that coordinate is negative. *)
Theorem placement_no_clamping :
  (forall W H w h : Z,
      fst (calculate_watermark_position W H w h "top-right") = W - w - margin /\
      fst (calculate_watermark_position W H w h "bottom-right")
        = W - w - margin /\
      snd (calculate_watermark_position W H w h "bottom-left")
        = H - h - margin /\
      snd (calculate_watermark_position W H w h "bottom-right")
        = H - h - margin) /\
  (exists W H w h : Z,
      0 <= W /\ 0 <= H /\ 0 <= w /\ 0 <= h /\ w + 2 * margin > W /\
      fst (calculate_watermark_position W H w h "top-right") < 0 /\
      fst (calculate_watermark_position W H w h "bottom-right") < 0) /\
  (exists W H w h : Z,
      0 <= W /\ 0 <= H /\ 0 <= w /\ 0 <= h /\ h + 2 * margin > H /\
      snd (calculate_watermark_position W H w h "bottom-left") < 0 /\
      snd (calculate_watermark_position W H w h "bottom-right") < 0).
Proof.
  split; [intros; repeat split; reflexivity|].
  split.
  - exists 100, 100, 90, 10. cbn. unfold margin. lia.
  - exists 100, 100, 10, 90. cbn. unfold margin. lia.
Qed.

(** ** The effect monad *)

Lemma outcome_bind {A B : Type} (m : M A) (f : A -> M B) :
  outcome (bind m f)
  = match outcome m with Return a => outcome (f a) | Raise => Raise end.
Proof. destruct m as [t [a|]]; cbn; [destruct (f a)|]; reflexivity. Qed.

Lemma trace_bind {A B : Type} (m : M A) (f : A -> M B) :
  trace (bind m f)
  = match outcome m with
    | Return a => (trace m ++ trace (f a))%list
    | Raise => trace m
    end.
Proof. destruct m as [t [a|]]; cbn; [destruct (f a)|]; reflexivity. Qed.

Lemma outcome_try_except {A : Type} (body handler : M A) :
  outcome (try_except body handler)
  = match outcome body with Return a => Return a | Raise => outcome handler end.
Proof. destruct body as [t [a|]], handler; reflexivity. Qed.

Lemma trace_try_except {A : Type} (body handler : M A) :
  trace (try_except body handler)
  = match outcome body with
    | Return _ => trace body
    | Raise => (trace body ++ trace handler)%list
    end.
Proof. destruct body as [t [a|]], handler; reflexivity. Qed.

Lemma bind_ret {A B : Type} (a : A) (f : A -> M B) : bind (ret a) f = f a.
Proof. unfold bind, ret. cbn. now destruct (f a). Qed.

Lemma try_except_return {A : Type} (a : A) (handler : M A) :
  try_except (ret a) handler = ret a.
Proof. reflexivity. Qed.


Lemma bind_pure {A B : Type} (a : A) (f : A -> M B) :
  bind ([], Return a) f = f a.
Proof. apply bind_ret. Qed.

(** ** The steps of [get_exif_date] *)

Lemma datetime_new_fields (year month day hour minute second : Z)
    (date_obj : datetime) :
  datetime_new year month day hour minute second = Some date_obj ->
  dt_year date_obj = year /\ dt_month date_obj = month /\
  dt_day date_obj = day.
Proof.
  unfold datetime_new.
  assert (G : forall (b : bool)
                (e : check_datetime_args year month day hour minute second
                     = b),
             (if b as b0
                 return check_datetime_args year month day hour minute
                          second = b0 -> option datetime
              then fun pf =>
                     Some (mk_datetime year month day hour minute second pf)
              else fun _ => None) e = Some date_obj ->
             dt_year date_obj = year /\ dt_month date_obj = month /\
             dt_day date_obj = day).
  { intros [|] e; [|discriminate]. intros [= <-]. cbn. auto. }
  exact (G _ eq_refl).
Qed.

Section Resolver_facts.

Variable w : World.

Lemma is_DateTime_item_iff (tag : Z) (value : ExifValue) :
  is_DateTime_item w (tag, value) = true
  <-> ExifTags_TAGS w tag = Some "DateTime".
Proof.
  unfold is_DateTime_item, tag_name_of. cbn [fst].
  destruct (ExifTags_TAGS w tag) as [name|]; cbn [name_eqb].
  - rewrite String.eqb_eq. split; [now intros ->|now intros [= ->]].
  - split; discriminate.
Qed.

Lemma scan_exif_find (items : list (Z * ExifValue)) :
  scan_exif w items
  = match find (is_DateTime_item w) items with
    | Some (_, value) =>
        try_bind (strptime value)
          (fun date_obj => Value (Some (strftime w date_obj)))
    | None => Value None
    end.
Proof.
  induction items as [|[tag value] rest IH]; [reflexivity|].
  cbn [scan_exif find]. unfold is_DateTime_item at 1. cbn [fst].
  destruct (name_eqb (tag_name_of w tag) "DateTime"); [reflexivity|exact IH].
Qed.

Lemma read_exif_date_items (image_path : string) (img : Image)
    (items : list (Z * ExifValue)) :
  Image_open w image_path = Some img ->
  im_getexif img = Some (Some items) ->
  read_exif_date w image_path = scan_exif w items.
Proof.
  intros Hopen Hexif. unfold read_exif_date. rewrite Hopen. cbn.
  rewrite Hexif. cbn. now destruct items.
Qed.

(** [datetime.fromtimestamp] performs no event, and the date it returns
    is the local date of the time stamp. *)
Lemma fromtimestamp_run (timet : Z) :
  trace (fromtimestamp w timet) = [] /\
  forall date_obj,
    outcome (fromtimestamp w timet) = Return date_obj ->
    exists year month day hour minute second,
      time_localtime w timet = Some (year, month, day, hour, minute, second)
      /\ dt_year date_obj = year /\ dt_month date_obj = month /\
      dt_day date_obj = day.
Proof.
  unfold fromtimestamp.
  destruct (time_localtime w timet) as [[[[[[y m] d] H] Mi] S]|];
    [|split; [reflexivity|discriminate]].
  cbn [call]. rewrite bind_ret.
  destruct (utc_to_seconds y m d H Mi (Z.min 59 S)) as [result|];
    [|split; [reflexivity|discriminate]].
  cbn [call]. rewrite bind_ret.
  destruct (local w (timet - max_fold_seconds)) as [probe|];
    [|split; [reflexivity|discriminate]].
  cbn [call]. rewrite bind_ret.
  assert (Hlast :
    let m0 := call (datetime_new y m d H Mi (Z.min 59 S)) in
    trace m0 = [] /\
    forall date_obj,
      outcome m0 = Return date_obj ->
      exists year month day hour minute second,
        Some (y, m, d, H, Mi, S)
        = Some (year, month, day, hour, minute, second)
        /\ dt_year date_obj = year /\ dt_month date_obj = month /\
        dt_day date_obj = day).
  { cbv zeta.
    destruct (datetime_new y m d H Mi (Z.min 59 S)) as [date_obj|] eqn:Hnew;
      (split; [reflexivity|]); [|discriminate].
    intros date_obj' [= <-].
    exists y, m, d, H, Mi, S. split; [reflexivity|].
    now apply (datetime_new_fields _ _ _ _ _ _ _ Hnew). }
  cbv zeta in Hlast.
  destruct (result - probe - max_fold_seconds <? 0).
  - destruct (local w (timet + (result - probe - max_fold_seconds)))
      as [probe'|]; [|split; [reflexivity|discriminate]].
    cbn [call]. rewrite !bind_ret. exact Hlast.
  - rewrite bind_ret. exact Hlast.
Qed.

(** The second [try] never raises and performs no event: it gives the
    local date of the modification time when both the file system and
    [fromtimestamp] give one, and the current date when either fails. *)
Lemma file_date_run (image_path : string) :
  file_date w image_path
  = ([], Return (strftime w
                   match os_path_getmtime w image_path with
                   | Some mtime =>
                       match outcome (fromtimestamp w mtime) with
                       | Return date_obj => date_obj
                       | Raise => datetime_now w
                       end
                   | None => datetime_now w
                   end)).
Proof.
  unfold file_date.
  destruct (os_path_getmtime w image_path) as [mtime|]; [|reflexivity].
  cbn [call]. rewrite bind_ret.
  destruct (fromtimestamp_run mtime) as [Ht _].
  destruct (fromtimestamp w mtime) as [t [date_obj|]];
    cbn [trace fst] in Ht; subst t; reflexivity.
Qed.

Lemma get_exif_date_value (image_path : string) (returned : option string) :
  read_exif_date w image_path = Value returned ->
  get_exif_date w image_path
  = match returned with
    | Some date => ([], Return date)
    | None => file_date w image_path
    end.
Proof.
  unfold get_exif_date. intros ->. rewrite bind_ret.
  now destruct returned.
Qed.

Lemma get_exif_date_except (image_path : string) (text_encodable : bool) :
  read_exif_date w image_path = Except text_encodable ->
  get_exif_date w image_path
  = (print_text w (encodable image_path && text_encodable)
       (MsgExifFailed image_path) ;;
     file_date w image_path).
Proof.
  unfold get_exif_date. intros ->. unfold print_text.
  destruct (negb (stdout_strict w)
            || encodable image_path && text_encodable); [|reflexivity].
  cbn. now destruct (file_date w image_path).
Qed.

(** A line that cannot be encoded is not printed where standard output
    is strict. *)
Lemma print_text_strict (m : Msg) :
  stdout_strict w = true -> print_text w false m = ([], Raise).
Proof. unfold print_text. now intros ->. Qed.

Lemma print_text_ok (text_encodable : bool) (m : Msg) :
  negb (stdout_strict w) || text_encodable = true ->
  print_text w text_encodable m = ([Print m], Return tt).
Proof. unfold print_text. now intros ->. Qed.

(** The metadata step on the EXIF items of an image: the first item
    whose tag is named [DateTime] decides. *)
Lemma get_exif_date_items (image_path : string) (img : Image)
    (items : list (Z * ExifValue)) :
  Image_open w image_path = Some img ->
  im_getexif img = Some (Some items) ->
  get_exif_date w image_path
  = match find (is_DateTime_item w) items with
    | Some (_, value) =>
        match strptime value with
        | Value date_obj => ([], Return (strftime w date_obj))
        | Except text_encodable =>
            print_text w (encodable image_path && text_encodable)
              (MsgExifFailed image_path) ;;
            file_date w image_path
        end
    | None => file_date w image_path
    end.
Proof.
  intros Hopen Hexif.
  pose proof (read_exif_date_items image_path img items Hopen Hexif) as Hread.
  rewrite scan_exif_find in Hread.
  destruct (find (is_DateTime_item w) items) as [[tag value]|].
  - destruct (strptime value) as [date_obj|text_encodable];
      cbn [try_bind] in Hread.
    + now rewrite (get_exif_date_value _ _ Hread).
    + now apply get_exif_date_except.
  - now rewrite (get_exif_date_value _ _ Hread).
Qed.

End Resolver_facts.

Lemma digit_of_is_digit (z : Z) : is_digit (digit_of z) = true.
Proof.
  unfold digit_of.
  assert (H : 0 <= z mod 10 < 10) by (apply Z.mod_pos_bound; lia).
  destruct (z mod 10) as [|p|p]; [reflexivity| |lia].
  do 4 (destruct p as [p|p|]; try lia; try reflexivity).
Qed.

(** A year of four digits is printed alike by every C library. *)
Lemma decimal_pad4 (z : Z) : 1000 <= z -> decimal z = pad4 z.
Proof.
  intros Hz. unfold decimal.
  destruct (Z.ltb_spec z 10); [lia|].
  destruct (Z.ltb_spec z 100); [lia|].
  destruct (Z.ltb_spec z 1000); [lia|reflexivity].
Qed.

Lemma strftime_ymd_padded (pads_year : bool) (date_obj : datetime) :
  1000 <= dt_year date_obj \/ pads_year = true ->
  strftime_ymd pads_year date_obj
  = pad4 (dt_year date_obj) ++ "-" ++ pad2 (dt_month date_obj) ++ "-"
    ++ pad2 (dt_day date_obj).
Proof.
  intros H. unfold strftime_ymd. destruct pads_year; [reflexivity|].
  destruct H as [H|H]; [|discriminate H]. now rewrite decimal_pad4.
Qed.

Lemma strftime_ymd_shape (pads_year : bool) (date_obj : datetime) :
  1000 <= dt_year date_obj \/ pads_year = true ->
  is_iso_date (strftime_ymd pads_year date_obj) = true.
Proof.
  intros H. rewrite (strftime_ymd_padded _ _ H).
  unfold pad4, pad2, is_iso_date.
  cbn [String.append list_ascii_of_string].
  rewrite !digit_of_is_digit. reflexivity.
Qed.

(** A year below 1000 that is not padded gives fewer than ten
    characters. *)
Lemma strftime_ymd_short (date_obj : datetime) :
  dt_year date_obj < 1000 ->
  is_iso_date (strftime_ymd false date_obj) = false.
Proof.
  intros Hy. unfold strftime_ymd, decimal.
  destruct (Z.ltb_spec (dt_year date_obj) 10); [reflexivity|].
  destruct (Z.ltb_spec (dt_year date_obj) 100); [reflexivity|].
  destruct (Z.ltb_spec (dt_year date_obj) 1000); [reflexivity|lia].
Qed.

(** ** The Date Resolver *)

(** The parse on sample values: single digits, runs of blanks, the
    no-break space and the digits of other scripts are accepted, as the
    expression of [_strptime] allows; text left over, a month or second
    out of range, and a day the month does not have are refused. *)
Example strptime_exif_accepts :
  (exists date_obj,
      strptime_exif "2023:05:17 10:00:00" = Parsed date_obj /\
      strftime_ymd false date_obj = "2023-05-17") /\
  (exists date_obj,
      strptime_exif "2023:5:7  1:2:3" = Parsed date_obj /\
      strftime_ymd false date_obj = "2023-05-07") /\
  (exists date_obj,
      strptime_exif ("2023:05:17" ++ String "194" (String "160" "10:00:00"))
      = Parsed date_obj /\
      strftime_ymd false date_obj = "2023-05-17") /\
  (exists date_obj,
      strptime_exif "٢٠٢٣:05:17 10:00:00" = Parsed date_obj /\
      strftime_ymd false date_obj = "2023-05-17").
Proof.
  repeat split; eexists; (split; [vm_compute; reflexivity|reflexivity]).
Qed.

Example strptime_exif_refuses :
  strptime_exif "2023:05:17 10:00:007" = Unconverted [55%N] /\
  strptime_exif "2023-05-17 10:00:00" = NoMatch /\
  strptime_exif "2023:02:30 10:00:00" = OutOfRange /\
  strptime_exif "2023:05:17 10:00:60" = OutOfRange /\
  strptime_exif "0000:01:01 00:00:00" = OutOfRange /\
  strptime_exif "" = NoMatch.
Proof. repeat split; vm_compute; reflexivity. Qed.

(** C1: the priority order breaks at a file that cannot be read and whose
    name is not valid UTF-8, where standard output is strict.  The
    metadata step fails there, as the claim foresees, but the resolver
    does not go on to the modification time: the [print] of line 61,
    which holds the path, raises [UnicodeEncodeError] inside the handler,
    and the exception leaves [get_exif_date] before the second step is
    tried, whatever the modification time is. *)
Theorem unreadable_file_skips_the_fallbacks :
  forall (w : World) (image_path : string),
    stdout_strict w = true ->
    encodable image_path = false ->
    Image_open w image_path = None ->
    get_exif_date w image_path = ([], Raise).
Proof.
  intros w image_path Hstrict Hname Hopen.
  rewrite (get_exif_date_except w image_path true).
  - rewrite Hname. cbn [andb]. now rewrite print_text_strict.
  - unfold read_exif_date. now rewrite Hopen.
Qed.

Lemma unreadable_file_skips_the_fallbacks_witness :
  os_path_getmtime sample_legacy ("old/" ++ cafe_jpg) = Some 1700000000 /\
  get_exif_date sample_legacy ("old/" ++ cafe_jpg) = ([], Raise).
Proof.
  split; [reflexivity|].
  apply (unreadable_file_skips_the_fallbacks sample_legacy
           ("old/" ++ cafe_jpg));
    reflexivity.
Defined.

(** C2: the resolver does surface an error, and does return a string
    that is not of the form YYYY-MM-DD.  Whenever the metadata step
    raises (a file that cannot be read, EXIF data that cannot be read, a
    [DateTime] value that does not parse) and the path is not valid
    UTF-8, the [print] of line 61 raises in its turn where standard
    output is strict, and that exception leaves [get_exif_date].  And
    where the C library does not pad the year, a capture time before the
    year 1000 is returned with a year of fewer than four digits. *)
Theorem date_resolver_can_fail :
  forall (w : World) (image_path : string),
    (stdout_strict w = true ->
     encodable image_path = false ->
     (forall returned, read_exif_date w image_path <> Value returned) ->
     get_exif_date w image_path = ([], Raise)) /\
    (forall img items tag s date_obj,
        strftime_pads_year w = false ->
        Image_open w image_path = Some img ->
        im_getexif img = Some (Some items) ->
        find (is_DateTime_item w) items = Some (tag, ExifStr s) ->
        strptime_exif s = Parsed date_obj ->
        dt_year date_obj < 1000 ->
        exists date,
          get_exif_date w image_path = ([], Return date) /\
          is_iso_date date = false).
Proof.
  intros w image_path. split.
  - intros Hstrict Hname Hfail.
    destruct (read_exif_date w image_path) as [returned|text_encodable]
      eqn:Hread; [now elim (Hfail returned)|].
    rewrite (get_exif_date_except w image_path text_encodable Hread).
    rewrite Hname. cbn [andb]. now rewrite print_text_strict.
  - intros img items tag s date_obj Hpads Hopen Hexif Hfind Hparse Hyear.
    exists (strftime w date_obj). split.
    + rewrite (get_exif_date_items w image_path img items Hopen Hexif), Hfind.
      cbn [strptime]. now rewrite Hparse.
    + unfold strftime. rewrite Hpads. now apply strftime_ymd_short.
Qed.

Lemma date_resolver_can_fail_witness :
  get_exif_date sample_legacy ("old/" ++ cafe_jpg) = ([], Raise) /\
  exists date,
    get_exif_date sample_early "tenth.jpg" = ([], Return date) /\
    is_iso_date date = false.
Proof.
  split.
  - apply (proj1 (date_resolver_can_fail sample_legacy ("old/" ++ cafe_jpg)));
      [reflexivity|reflexivity|discriminate].
  - refine (proj2 (date_resolver_can_fail sample_early "tenth.jpg")
              sample_tenth [(306, ExifStr "0999:01:01 00:00:00")] 306
              "0999:01:01 00:00:00" (mk_datetime 999 1 1 0 0 0 eq_refl)
              eq_refl eq_refl eq_refl eq_refl _ _).
    + vm_compute. reflexivity.
    + cbn. lia.
Defined.

(** C6: the claim as stated fails at a file without metadata whose
    modification time falls on the first day of the year 1 in local
    time: [datetime.fromtimestamp] refuses such a time stamp, and the
    resolver returns the current date, not the calendar date of the
    modification time.  It fails as well, where the C library does not
    pad the year, at a modification time in the year 999, for which the
    result is not of the form YYYY-MM-DD. *)
Lemma date_resolver_examples_counterexample :
  (Image_open sample_early "first.jpg" = Some sample_photo /\
   im_getexif sample_photo = Some None /\
   os_path_getmtime sample_early "first.jpg" = Some (-62135596800) /\
   time_localtime sample_early (-62135596800) = Some (1, 1, 1, 0, 0, 0) /\
   get_exif_date sample_early "first.jpg" = ([], Return "2024-02-29")) /\
  (Image_open sample_early "summer.jpg" = Some sample_photo /\
   os_path_getmtime sample_early "summer.jpg" = Some (-30627460800) /\
   time_localtime sample_early (-30627460800)
   = Some (999, 6, 15, 12, 0, 0) /\
   get_exif_date sample_early "summer.jpg" = ([], Return "999-06-15") /\
   is_iso_date "999-06-15" = false).
Proof. repeat split; vm_compute; reflexivity. Qed.

(** C6, amended: when the [DateTime] value of the image is the string
    [2023:05:17 10:00:00], the resolver returns [2023-05-17]; and when
    the image has no metadata, the modification time of the file is
    known and [datetime.fromtimestamp] accepts it, the resolver returns
    the local calendar date of that time, which has the form YYYY-MM-DD
    when the year has four digits or the C library pads it.  When
    [datetime.fromtimestamp] refuses the modification time, the resolver
    returns the current date. *)
Theorem date_resolver_examples :
  forall (w : World) (image_path : string) (img : Image),
    Image_open w image_path = Some img ->
    (forall items tag,
        im_getexif img = Some (Some items) ->
        find (is_DateTime_item w) items
        = Some (tag, ExifStr "2023:05:17 10:00:00") ->
        get_exif_date w image_path = ([], Return "2023-05-17")) /\
    (forall mtime,
        im_getexif img = Some None \/ im_getexif img = Some (Some []) ->
        os_path_getmtime w image_path = Some mtime ->
        (forall date_obj year month day hour minute second,
            outcome (fromtimestamp w mtime) = Return date_obj ->
            time_localtime w mtime
            = Some (year, month, day, hour, minute, second) ->
            1000 <= year \/ strftime_pads_year w = true ->
            get_exif_date w image_path
            = ([], Return (pad4 year ++ "-" ++ pad2 month ++ "-"
                           ++ pad2 day))) /\
        (outcome (fromtimestamp w mtime) = Raise ->
         get_exif_date w image_path
         = ([], Return (strftime w (datetime_now w))))).
Proof.
  intros w image_path img Hopen. split.
  - intros items tag Hexif Hfind.
    rewrite (get_exif_date_items w image_path img items Hopen Hexif), Hfind.
    cbn [strptime].
    assert (Hparse : exists date_obj,
               strptime_exif "2023:05:17 10:00:00" = Parsed date_obj /\
               forall pads_year,
                 strftime_ymd pads_year date_obj = "2023-05-17").
    { eexists. split; [vm_compute; reflexivity|]. now intros [|]. }
    destruct Hparse as [date_obj [-> Hdate]].
    unfold strftime. now rewrite Hdate.
  - intros mtime Hnone Hmtime.
    assert (Hfall : get_exif_date w image_path = file_date w image_path).
    { destruct Hnone as [Hexif|Hexif].
      - apply (get_exif_date_value w image_path None).
        unfold read_exif_date. rewrite Hopen. cbn. now rewrite Hexif.
      - now rewrite (get_exif_date_items w image_path img [] Hopen Hexif). }
    rewrite Hfall, file_date_run, Hmtime. split.
    + intros date_obj year month day hour minute second Hfrom Hlocal Hyear.
      rewrite Hfrom.
      destruct (fromtimestamp_run w mtime) as [_ Hfields].
      destruct (Hfields date_obj Hfrom)
        as [y [m [d [H [Mi [S [Hl [Hy [Hm Hd]]]]]]]]].
      rewrite Hlocal in Hl. injection Hl as <- <- <- <- <- <-.
      unfold strftime. rewrite strftime_ymd_padded, Hy, Hm, Hd;
        [reflexivity|now rewrite Hy].
    + now intros ->.
Qed.

Lemma date_resolver_examples_witness :
  get_exif_date sample_world "photos/a.jpg" = ([], Return "2023-05-17") /\
  get_exif_date sample_world "photos/PHOTO.JPG" = ([], Return "2023-11-14") /\
  get_exif_date sample_early "first.jpg" = ([], Return "2024-02-29").
Proof.
  split; [|split].
  - apply (proj1 (date_resolver_examples sample_world "photos/a.jpg"
                    sample_a eq_refl)
             [(271, ExifStr "Canon");
              (36867, ExifStr "2020:01:01 08:00:00");
              (306, ExifStr "2023:05:17 10:00:00")] 306);
      reflexivity.
  - apply (proj1 (proj2 (date_resolver_examples sample_world
                           "photos/PHOTO.JPG" sample_photo eq_refl)
                    1700000000 (or_introl eq_refl) eq_refl)
             (mk_datetime 2023 11 14 22 13 20 eq_refl) 2023 11 14 22 13 20);
      [vm_compute; reflexivity|reflexivity|left; lia].
  - apply (proj2 (proj2 (date_resolver_examples sample_early "first.jpg"
                           sample_photo eq_refl)
                    (-62135596800) (or_introl eq_refl) eq_refl)).
    vm_compute. reflexivity.
Defined.

(** C9: the metadata step looks at the tag named [DateTime] and at no
    other.  An item counts exactly when the table names its tag
    [DateTime].  On an image with EXIF data the first such item decides,
    whatever the other items are: when its value parses, the resolver
    returns the date of that value and prints nothing; when it does not,
    the resolver reports the failure and takes the fallback, without a
    look at the items that follow.  And when the EXIF data has no such
    tag (whatever other time stamps it holds) the resolver takes the
    fallback, printing nothing and raising nothing: the local date of the
    modification time when that is known and [datetime.fromtimestamp]
    accepts it, the current date otherwise. *)
Theorem metadata_step_reads_DateTime_only :
  forall w : World,
    (forall tag value,
        is_DateTime_item w (tag, value) = true
        <-> ExifTags_TAGS w tag = Some "DateTime") /\
    (forall image_path img items,
        Image_open w image_path = Some img ->
        im_getexif img = Some (Some items) ->
        (forall tag s date_obj,
            find (is_DateTime_item w) items = Some (tag, ExifStr s) ->
            strptime_exif s = Parsed date_obj ->
            get_exif_date w image_path
            = ([], Return (strftime w date_obj))) /\
        (forall tag value text_encodable,
            find (is_DateTime_item w) items = Some (tag, value) ->
            strptime value = Except text_encodable ->
            get_exif_date w image_path
            = (print_text w (encodable image_path && text_encodable)
                 (MsgExifFailed image_path) ;;
               file_date w image_path)) /\
        ((forall tag value,
             In (tag, value) items ->
             ExifTags_TAGS w tag <> Some "DateTime") ->
         get_exif_date w image_path
         = ([], Return
                  (strftime w
                     match os_path_getmtime w image_path with
                     | Some mtime =>
                         match outcome (fromtimestamp w mtime) with
                         | Return date_obj => date_obj
                         | Raise => datetime_now w
                         end
                     | None => datetime_now w
                     end)))).
Proof.
  intros w. split; [apply is_DateTime_item_iff|].
  intros image_path img items Hopen Hexif.
  pose proof (get_exif_date_items w image_path img items Hopen Hexif) as Hrun.
  split; [|split].
  - intros tag s date_obj Hfind Hparse.
    rewrite Hrun, Hfind. cbn [strptime]. now rewrite Hparse.
  - intros tag value text_encodable Hfind Hfail.
    now rewrite Hrun, Hfind, Hfail.
  - intros Hnone.
    assert (Hfind : find (is_DateTime_item w) items = None).
    { destruct (find (is_DateTime_item w) items) as [[tag value]|] eqn:Hf;
        [|reflexivity].
      apply find_some in Hf. destruct Hf as [Hin Htrue].
      apply is_DateTime_item_iff in Htrue. now elim (Hnone tag value Hin). }
    rewrite Hrun, Hfind. apply file_date_run.
Qed.

Lemma metadata_step_reads_DateTime_only_witness :
  get_exif_date sample_world "photos/a.jpg" = ([], Return "2023-05-17") /\
  get_exif_date sample_world "photos/orig.jpg" = ([], Return "2023-11-14").
Proof.
  split.
  - apply (proj1 (proj2 (metadata_step_reads_DateTime_only sample_world)
                    "photos/a.jpg" sample_a
                    [(271, ExifStr "Canon");
                     (36867, ExifStr "2020:01:01 08:00:00");
                     (306, ExifStr "2023:05:17 10:00:00")]
                    eq_refl eq_refl)
             306 "2023:05:17 10:00:00"
             (mk_datetime 2023 5 17 10 0 0 eq_refl));
      [reflexivity|vm_compute; reflexivity].
  - apply (proj2 (proj2 (proj2 (metadata_step_reads_DateTime_only
                                  sample_world)
                           "photos/orig.jpg" sample_orig
                           [(271, ExifStr "Canon");
                            (36867, ExifStr "2020:01:01 08:00:00")]
                           eq_refl eq_refl))).
    intros tag value [[= <- <-]|[[= <- <-]|[]]]; discriminate.
Defined.

(** ** Traces of [add_watermark] and of the loop *)

Lemma saved_files_app (t1 t2 : list Event) :
  saved_files (t1 ++ t2) = (saved_files t1 ++ saved_files t2)%list.
Proof.
  induction t1 as [|[m|p|p] t1 IH]; cbn [app saved_files];
    [reflexivity|exact IH|exact IH|now rewrite IH].
Qed.

Lemma processed_names_app (t1 t2 : list Event) :
  processed_names (t1 ++ t2)
  = (processed_names t1 ++ processed_names t2)%list.
Proof.
  induction t1 as [|[m|p|p] t1 IH]; cbn [app processed_names];
    [reflexivity| |exact IH|exact IH].
  destruct m; cbn [app]; now rewrite ?IH.
Qed.

Create HintDb quiet.

Lemma quiet_ret {A : Type} (a : A) : quiet (ret a).
Proof. split; reflexivity. Qed.

Lemma quiet_raise {A : Type} : quiet (@raise A).
Proof. split; reflexivity. Qed.

Lemma quiet_call {A : Type} (result : option A) : quiet (call result).
Proof. destruct result; split; reflexivity. Qed.

Lemma quiet_attempt (ok : bool) : quiet (attempt ok).
Proof. destruct ok; split; reflexivity. Qed.

Lemma quiet_bind {A B : Type} (m : M A) (f : A -> M B) :
  quiet m -> (forall a, quiet (f a)) -> quiet (bind m f).
Proof.
  intros [Hs Hp] Hf. unfold quiet. rewrite trace_bind.
  destruct (outcome m) as [a|]; [|now split].
  destruct (Hf a) as [Hs' Hp'].
  rewrite saved_files_app, processed_names_app, Hs, Hp, Hs', Hp'. now split.
Qed.

Lemma quiet_try_except {A : Type} (body handler : M A) :
  quiet body -> quiet handler -> quiet (try_except body handler).
Proof.
  intros [Hs Hp] [Hs' Hp']. unfold quiet. rewrite trace_try_except.
  destruct (outcome body) as [a|]; [now split|].
  rewrite saved_files_app, processed_names_app, Hs, Hp, Hs', Hp'. now split.
Qed.

Lemma quiet_if {A : Type} (b : bool) (m1 m2 : M A) :
  quiet m1 -> quiet m2 -> quiet (if b then m1 else m2).
Proof. now destruct b. Qed.

#[local] Hint Resolve quiet_ret quiet_raise quiet_call quiet_attempt
  quiet_bind quiet_try_except quiet_if : quiet.


Lemma bind_assoc {A B C : Type} (m : M A) (f : A -> M B) (g : B -> M C) :
  bind (bind m f) g = bind m (fun a => bind (f a) g).
Proof.
  destruct m as [t [a|]]; [|reflexivity]. cbn [bind].
  destruct (f a) as [t' [b|]]; cbn [bind]; [|reflexivity].
  destruct (g b) as [t'' o]. now rewrite app_assoc.
Qed.

Lemma bind_ext {A B : Type} (m : M A) (f g : A -> M B) :
  (forall a, f a = g a) -> bind m f = bind m g.
Proof. intros H. destruct m as [t [a|]]; [|reflexivity]. cbn. now rewrite H. Qed.

Section Run_facts.

Variable w : World.

Lemma quiet_pil (c : PilCall) : quiet (pil w c).
Proof. apply quiet_attempt. Qed.

Lemma quiet_convert (img : Image) (mode : string) : quiet (convert w img mode).
Proof. unfold convert. auto using quiet_pil with quiet. Qed.

Lemma quiet_new_image (mode : string) (size : Z * Z) (color : RGBA) :
  quiet (new_image w mode size color).
Proof. unfold new_image. auto using quiet_pil with quiet. Qed.

Lemma quiet_alpha_composite (im1 im2 : Image) :
  quiet (alpha_composite w im1 im2).
Proof. unfold alpha_composite. auto using quiet_pil with quiet. Qed.

Lemma quiet_load_default : quiet (load_default w).
Proof. unfold load_default. auto using quiet_pil with quiet. Qed.

Lemma quiet_default_font :
  quiet (f <- load_default w ;; print MsgDefaultFont ;; ret f).
Proof.
  apply quiet_bind; [apply quiet_load_default|intros f].
  split; reflexivity.
Qed.

Lemma quiet_first_font (paths : list string) (font_size : Z) :
  quiet (first_font w paths font_size).
Proof.
  induction paths as [|font_path rest IH]; cbn [first_font];
    auto using quiet_pil with quiet.
Qed.

Lemma quiet_choose_font (font_size : Z) : quiet (choose_font w font_size).
Proof.
  unfold choose_font. apply quiet_try_except; [|apply quiet_default_font].
  apply quiet_bind; [apply quiet_first_font|].
  intros [f|]; [apply quiet_ret|apply quiet_default_font].
Qed.

Lemma ends_in_save_bind {A : Type} (path : string) (m : M A)
    (f : A -> M bool) :
  quiet m -> (forall a, ends_in_save path (f a)) ->
  ends_in_save path (bind m f).
Proof.
  intros [Hs Hp] Hf. unfold ends_in_save.
  rewrite trace_bind, outcome_bind.
  destruct (outcome m) as [a|]; [|split; [exact Hp|right; now split]].
  destruct (Hf a) as [Hp' Hcase].
  rewrite saved_files_app, processed_names_app, Hs, Hp, Hp'.
  split; [reflexivity|exact Hcase].
Qed.

Lemma ends_in_save_save (img : Image) (path : string) (quality : Z) :
  ends_in_save path (save w img path quality ;; ret true).
Proof.
  unfold save, pil, ends_in_save.
  destruct (pil_ok w (Call_save img path quality)); cbn; auto.
Qed.

Lemma add_watermark_body_ends_in_save (image_path watermark_text : string)
    (font_size : Z) (color : RGB) (position output_path : string) :
  exists body,
    add_watermark w image_path watermark_text font_size color position
      output_path
    = try_except body
        (print_text w (encodable image_path) (MsgProcessFailed image_path) ;;
         ret false)
    /\ ends_in_save output_path body.
Proof.
  eexists. split; [reflexivity|].
  apply ends_in_save_bind; [apply quiet_call|intros img].
  apply ends_in_save_bind;
    [apply quiet_if; [apply quiet_convert|apply quiet_ret]|intros img'].
  apply ends_in_save_bind; [apply quiet_pil|intros _].
  apply ends_in_save_bind; [apply quiet_choose_font|intros font].
  apply ends_in_save_bind; [apply quiet_call|intros [[[b0 b1] b2] b3]].
  cbv zeta.
  match goal with
  | |- context [calculate_watermark_position ?a ?b ?c ?d ?e] =>
      destruct (calculate_watermark_position a b c d e) as [x y]
  end.
  apply ends_in_save_bind; [apply quiet_new_image|intros overlay].
  do 2 (apply ends_in_save_bind; [apply quiet_pil|intros _]).
  apply ends_in_save_bind; [apply quiet_convert|intros rgba].
  apply ends_in_save_bind; [apply quiet_alpha_composite|intros composite].
  apply ends_in_save_bind; [apply quiet_convert|intros img''].
  do 2 (apply ends_in_save_bind; [apply quiet_pil|intros _]).
  apply ends_in_save_save.
Qed.

(** How [add_watermark] ends: with [True] and the output written; with
    [False], nothing written; or, nothing written either, with the
    exception of the [print] of its handler, which is raised only where
    standard output is strict and the path cannot be encoded. *)
Lemma add_watermark_run (image_path watermark_text : string) (font_size : Z)
    (color : RGB) (position output_path : string) :
  let m := add_watermark w image_path watermark_text font_size color position
             output_path in
  processed_names (trace m) = [] /\
  ((outcome m = Return true /\ saved_files (trace m) = [output_path]) \/
   (outcome m = Return false /\ saved_files (trace m) = [] /\
    negb (stdout_strict w) || encodable image_path = true) \/
   (outcome m = Raise /\ saved_files (trace m) = [] /\
    negb (stdout_strict w) || encodable image_path = false)).
Proof.
  destruct (add_watermark_body_ends_in_save image_path watermark_text
              font_size color position output_path)
    as [body [-> [Hp Hcase]]].
  cbn zeta. rewrite trace_try_except, outcome_try_except.
  destruct Hcase as [[Ho Hs]|[Ho Hs]]; rewrite Ho.
  - split; [exact Hp|left; now split].
  - rewrite processed_names_app, saved_files_app, Hp, Hs.
    unfold print_text.
    destruct (negb (stdout_strict w) || encodable image_path);
      (split; [reflexivity|right]); [left|right]; now repeat split.
Qed.

Lemma quiet_print_exif_failed (text_encodable : bool) (image_path : string) :
  quiet (print_text w text_encodable (MsgExifFailed image_path)).
Proof.
  unfold print_text.
  destruct (negb (stdout_strict w) || text_encodable); split; reflexivity.
Qed.

Lemma quiet_file_date (image_path : string) : quiet (file_date w image_path).
Proof. rewrite file_date_run. split; reflexivity. Qed.

Lemma quiet_get_exif_date (image_path : string) :
  quiet (get_exif_date w image_path).
Proof.
  destruct (read_exif_date w image_path) as [returned|text_encodable]
    eqn:Hread.
  - rewrite (get_exif_date_value w _ _ Hread).
    destruct returned; [apply quiet_ret|apply quiet_file_date].
  - rewrite (get_exif_date_except w _ _ Hread).
    apply quiet_bind; [apply quiet_print_exif_failed|].
    intros _. apply quiet_file_date.
Qed.

Section Loop.

Variables (output_dir : string) (font_size : Z) (color : RGB)
  (position : string).

Let ok := processed_ok w output_dir font_size color position.
Let turn := process_one w output_dir font_size color position.

(** The loop is its first turn followed by the loop on the rest. *)
Lemma process_each_cons (image_path : string) (rest : list string)
    (success_count : nat) :
  process_each w output_dir font_size color position (image_path :: rest)
    success_count
  = (done <- turn image_path ;;
     process_each w output_dir font_size color position rest
       (if done : bool then S success_count else success_count)).
Proof.
  cbn [process_each]. unfold turn, process_one.
  rewrite bind_assoc. apply bind_ext. intros watermark_text.
  rewrite bind_assoc. apply bind_ext. intros _.
  rewrite bind_assoc. apply bind_ext. intros [|];
    rewrite bind_assoc; apply bind_ext; intros _; now rewrite bind_ret.
Qed.

(** One turn of the loop: it announces the file and writes its output,
    or announces it and writes nothing, or raises having written
    nothing. *)
Lemma process_one_run (image_path : string) :
  let m := turn image_path in
  (outcome m = Return true /\
   saved_files (trace m) = [output_path_of output_dir image_path] /\
   processed_names (trace m) = [basename image_path]) \/
  (outcome m = Return false /\ saved_files (trace m) = [] /\
   processed_names (trace m) = [basename image_path]) \/
  (outcome m = Raise /\ saved_files (trace m) = []).
Proof.
  cbv zeta. unfold turn, process_one.
  destruct (quiet_get_exif_date image_path) as [Hs Hp].
  rewrite outcome_bind, trace_bind.
  destruct (outcome (get_exif_date w image_path)) as [watermark_text|];
    [|right; right; now split].
  rewrite outcome_bind, trace_bind. unfold print_text.
  destruct (negb (stdout_strict w)
            || encodable (basename image_path) && encodable watermark_text);
    cbn [outcome trace print emit raise fst snd];
    [|right; right; split; [reflexivity|now rewrite app_nil_r]].
  destruct (add_watermark_run image_path watermark_text font_size color
              position (path_join output_dir (basename image_path)))
    as [Hp' Hcase].
  cbv zeta in Hp', Hcase.
  rewrite outcome_bind, trace_bind.
  destruct Hcase as [[Ho Hsv]|[[Ho [Hsv _]]|[Ho [Hsv _]]]]; rewrite Ho;
    cbn [outcome trace print emit bind ret fst snd app];
    rewrite ?saved_files_app, ?processed_names_app;
    cbn [saved_files processed_names];
    rewrite ?saved_files_app, ?processed_names_app, ?Hs, ?Hp, ?Hp', ?Hsv;
    cbn [saved_files processed_names app]; auto.
Qed.

Lemma process_each_run (image_files : list string) :
  forall success_count : nat,
    let m := process_each w output_dir font_size color position image_files
               success_count in
    let taken := reached w output_dir font_size color position image_files in
    saved_files (trace m)
    = map (output_path_of output_dir) (filter ok taken) /\
    match outcome m with
    | Return count =>
        count = (success_count + List.length (saved_files (trace m)))%nat /\
        taken = image_files /\
        processed_names (trace m) = map basename image_files
    | Raise =>
        exists failing,
          In failing image_files /\ outcome (turn failing) = Raise
    end.
Proof.
  induction image_files as [|image_path rest IH]; intros n; cbv zeta.
  - cbn. rewrite Nat.add_0_r. auto.
  - rewrite process_each_cons, outcome_bind, trace_bind.
    cbn [reached]. fold turn.
    assert (Hok : ok image_path
                  = match outcome (turn image_path) with
                    | Return true => true
                    | _ => false
                    end) by reflexivity.
    destruct (process_one_run image_path)
      as [[Ho [Hs Hp]]|[[Ho [Hs Hp]]|[Ho Hs]]];
      cbv zeta in Ho, Hs; rewrite Ho in *; cbn [filter map]; rewrite Hok.
    + destruct (IH (S n)) as [I1 I2]. cbv zeta in I1, I2.
      rewrite saved_files_app, processed_names_app, Hs, Hp, I1.
      split; [reflexivity|].
      destruct (outcome (process_each w output_dir font_size color position
                           rest (S n))) as [count|].
      * destruct I2 as [-> [I3 ->]]. rewrite I1, I3. cbn [app List.length].
        repeat split. lia.
      * destruct I2 as [failing [Hin Hf]]. exists failing. split; [|exact Hf].
        now right.
    + destruct (IH n) as [I1 I2]. cbv zeta in I1, I2.
      rewrite saved_files_app, processed_names_app, Hs, Hp, I1.
      split; [reflexivity|].
      destruct (outcome (process_each w output_dir font_size color position
                           rest n)) as [count|].
      * destruct I2 as [-> [I3 ->]]. rewrite I1, I3. cbn [app List.length].
        repeat split.
      * destruct I2 as [failing [Hin Hf]]. exists failing. split; [|exact Hf].
        now right.
    + rewrite Hs. split; [reflexivity|].
      exists image_path. split; [now left|exact Ho].
Qed.

End Loop.

End Run_facts.

(** ** Strings and paths *)

Lemma endswith_iff (s suffix : string) :
  endswith s suffix = true <-> exists stem, s = stem ++ suffix.
Proof.
  split.
  - induction s as [|c r IH]; cbn [endswith]; intros H.
    + rewrite orb_false_r in H. apply String.eqb_eq in H. now exists "".
    + apply orb_true_iff in H. destruct H as [H|H].
      * apply String.eqb_eq in H. now exists "".
      * destruct (IH H) as [stem ->]. now exists (String c stem).
  - intros [stem ->]. induction stem as [|c stem IH].
    + cbn [String.append]. destruct suffix; cbn [endswith];
        rewrite String.eqb_refl; reflexivity.
    + cbn [String.append endswith]. rewrite IH. apply orb_true_r.
Qed.

Lemma endswith_any_iff (s : string) (suffixes : list string) :
  endswith_any s suffixes = true
  <-> exists ext stem, In ext suffixes /\ s = stem ++ ext.
Proof.
  unfold endswith_any. rewrite existsb_exists. split.
  - intros [ext [Hin H]]. apply endswith_iff in H. destruct H as [stem ->].
    now exists ext, stem.
  - intros [ext [stem [Hin ->]]]. exists ext. split; [exact Hin|].
    apply endswith_iff. now exists stem.
Qed.

Lemma selected_iff (filename : string) :
  selected filename = true <-> has_supported_extension filename.
Proof. apply endswith_any_iff. Qed.

Lemma collect_image_files_eq (directory : string) (filenames : list string) :
  forall image_files,
    collect_image_files directory filenames image_files
    = (image_files
       ++ map (path_join directory) (filter selected filenames))%list.
Proof.
  induction filenames as [|filename rest IH]; intros acc;
    cbn [collect_image_files filter map].
  - now rewrite app_nil_r.
  - fold (selected filename). destruct (selected filename).
    + rewrite IH, <- app_assoc. reflexivity.
    + apply IH.
Qed.

Lemma contains_sep_basename (p : string) : contains_sep (basename p) = false.
Proof.
  induction p as [|c r IH]; [reflexivity|]. cbn [basename].
  destruct (contains_sep r) eqn:Hr; [exact IH|].
  destruct (is_sep c) eqn:Hc; [exact Hr|].
  cbn [contains_sep]. now rewrite Hc, Hr.
Qed.

Lemma basename_no_sep (p : string) :
  contains_sep p = false -> basename p = p.
Proof.
  destruct p as [|c r]; [reflexivity|]. cbn [contains_sep basename].
  intros H. apply orb_false_iff in H. destruct H as [-> ->]. reflexivity.
Qed.

Lemma contains_sep_app_sep (a b : string) :
  contains_sep (a ++ String "/" b) = true.
Proof.
  induction a as [|c a IH]; cbn [String.append contains_sep].
  - reflexivity.
  - rewrite IH. apply orb_true_r.
Qed.

Lemma basename_app_sep (a b : string) :
  contains_sep b = false -> basename (a ++ String "/" b) = b.
Proof.
  intros Hb. induction a as [|c a IH]; cbn [String.append basename].
  - now rewrite Hb.
  - now rewrite contains_sep_app_sep.
Qed.

Lemma append_assoc (a b c : string) : (a ++ b) ++ c = a ++ (b ++ c).
Proof. induction a as [|x a IH]; cbn [String.append]; now rewrite ?IH. Qed.

Lemma no_sep_not_absolute (b : string) :
  contains_sep b = false -> String.prefix "/" b = false.
Proof.
  destruct b as [|c r]; [reflexivity|]. cbn [contains_sep String.prefix].
  intros H. apply orb_false_iff in H. destruct H as [Hc _].
  unfold is_sep in Hc. rewrite Ascii.eqb_sym in Hc.
  destruct (Ascii.ascii_dec "/" c) as [<-|Hne]; [discriminate Hc|reflexivity].
Qed.

(** The file name of a joined path is the joined name, when that name is
    a single component. *)
Lemma basename_path_join (a b : string) :
  contains_sep b = false -> basename (path_join a b) = b.
Proof.
  intros Hb. unfold path_join. rewrite (no_sep_not_absolute b Hb).
  destruct (String.eqb_spec a "") as [->|_]; cbn [orb].
  - cbn [String.append]. now apply basename_no_sep.
  - destruct (endswith a "/") eqn:He.
    + apply endswith_iff in He. destruct He as [stem ->].
      rewrite append_assoc. cbn [String.append]. now apply basename_app_sep.
    + now apply basename_app_sep.
Qed.

Lemma length_append (a b : string) :
  String.length (a ++ b) = (String.length a + String.length b)%nat.
Proof. induction a as [|c a IH]; cbn; now rewrite ?IH. Qed.

Lemma eqb_length (a b : string) :
  String.length a <> String.length b -> String.eqb a b = false.
Proof.
  intros H. destruct (String.eqb_spec a b) as [->|_]; [now elim H|reflexivity].
Qed.

Lemma endswith_append (a b suffix : string) :
  (String.length suffix <= String.length b)%nat ->
  endswith (a ++ b) suffix = endswith b suffix.
Proof.
  intros Hlen. induction a as [|c a IH]; [reflexivity|].
  cbn [String.append endswith]. rewrite IH, eqb_length; [reflexivity|].
  cbn [String.length]. rewrite length_append. lia.
Qed.

(** The output directory is never empty and never ends with a separator,
    so joining a single component to it puts one separator between. *)
Lemma path_join_output_dir (directory filename : string) :
  contains_sep filename = false ->
  path_join (path_join directory "_watermark") filename
  = path_join directory "_watermark" ++ "/" ++ filename.
Proof.
  intros Hf. unfold path_join at 1. rewrite (no_sep_not_absolute _ Hf).
  assert (H : exists a, path_join directory "_watermark" = a ++ "_watermark").
  { unfold path_join. cbn [String.prefix].
    destruct (String.eqb directory "" || endswith directory "/").
    - now exists directory.
    - exists (directory ++ "/"). now rewrite append_assoc. }
  destruct H as [a ->].
  rewrite endswith_append by (cbn; lia).
  rewrite eqb_length; [reflexivity|].
  rewrite length_append. cbn. lia.
Qed.
(** ** File selection *)

Lemma get_image_files_run (w : World) (directory : string) :
  get_image_files w directory
  = match os_listdir w directory with
    | Some filenames =>
        ([], Return (map (path_join directory) (filter selected filenames)))
    | None => ([Print MsgListdirFailed], Return [])
    end.
Proof.
  unfold get_image_files.
  destruct (os_listdir w directory) as [filenames|]; [|reflexivity].
  cbn. now rewrite collect_image_files_eq.
Qed.

(** C10: selection ignores the case of the extension.  When the
    directory can be listed, the files returned are the listed names, in
    order and joined to the directory, whose lower-cased form ends with
    one of [.jpg], [.jpeg], [.png], [.tiff], [.bmp], and no others; so
    [PHOTO.JPG] is among them when listed. *)
Theorem file_selection_case_insensitive :
  forall (w : World) (directory : string) (filenames : list string),
    os_listdir w directory = Some filenames ->
    outcome (get_image_files w directory)
    = Return (map (path_join directory) (filter selected filenames)) /\
    (forall filename,
        In filename (filter selected filenames)
        <-> In filename filenames /\ has_supported_extension filename) /\
    (In "PHOTO.JPG" filenames ->
     In "PHOTO.JPG" (filter selected filenames)).
Proof.
  intros w directory filenames Hlist.
  rewrite get_image_files_run, Hlist. split; [reflexivity|]. split.
  - intros filename. rewrite filter_In, selected_iff. reflexivity.
  - intros Hin. apply filter_In. split; [exact Hin|reflexivity].
Qed.

Lemma file_selection_case_insensitive_witness :
  outcome (get_image_files sample_world "photos")
  = Return ["photos/a.jpg"; "photos/broken.PNG"; "photos/orig.jpg";
            "photos/PHOTO.JPG"].
Proof.
  exact (proj1 (file_selection_case_insensitive sample_world "photos"
                  ["a.jpg"; "notes.txt"; "broken.PNG"; "orig.jpg";
                   "PHOTO.JPG"] eq_refl)).
Defined.

(** ** The loops of the dialogue *)

Lemma tool_events_app (o1 o2 : list Output) :
  tool_events (o1 ++ o2) = (tool_events o1 ++ tool_events o2)%list.
Proof.
  induction o1 as [|[e|s] o1 IH]; cbn [app tool_events];
    [reflexivity|now rewrite IH|exact IH].
Qed.

Lemma prompts_app (o1 o2 : list Output) :
  prompts (o1 ++ o2) = (prompts o1 + prompts o2)%nat.
Proof.
  induction o1 as [|[e|s] o1 IH]; cbn [app prompts]; [reflexivity|exact IH|].
  destruct s; cbn [Nat.add]; now rewrite IH.
Qed.

Lemma tool_events_map_Tool (t : list Event) : tool_events (map Tool t) = t.
Proof. induction t as [|e t IH]; cbn; now rewrite ?IH. Qed.

Lemma prompts_map_Tool (t : list Event) : prompts (map Tool t) = 0%nat.
Proof. induction t as [|e t IH]; cbn; now rewrite ?IH. Qed.

(** The three loops of [get_user_preferences] have one shape: a line
    that is accepted ends the loop, a line that is not costs a prompt
    and a message, and the end of the input raises [EOFError]. *)
Section Ask_loop.

Context {A : Type}.
Variable loop : list string -> list Output * Ending A * list string.
Variable accept : string -> option A.
Variable ask_prompt : Said.
Variable complaint : string -> Said.

Hypothesis prompt_counts : prompts [Say ask_prompt] = 1%nat.
Hypothesis complaint_silent :
  forall line, prompts [Say (complaint line)] = 0%nat.
Hypothesis loop_eof : loop [] = ([Say ask_prompt], Uncaught EOFError, []).
Hypothesis loop_take :
  forall line rest a,
    accept line = Some a -> loop (line :: rest) = ([Say ask_prompt], Done a, rest).
Hypothesis loop_skip :
  forall line rest,
    accept line = None ->
    loop (line :: rest)
    = after [Say ask_prompt; Say (complaint line)] (loop rest).

Lemma loop_first_accepted (skipped : list string) (line : string)
    (rest : list string) (a : A) :
  Forall (rejected accept) skipped -> accept line = Some a ->
  exists out,
    loop (skipped ++ line :: rest) = (out, Done a, rest) /\
    tool_events out = [] /\
    prompts out = S (List.length skipped).
Proof.
  intros Hskip Hline. induction Hskip as [|bad skipped Hbad _ IH].
  - exists [Say ask_prompt]. cbn [app]. rewrite (loop_take _ _ _ Hline).
    repeat split. exact prompt_counts.
  - destruct IH as [out [Heq [Hev Hpr]]].
    exists (Say ask_prompt :: Say (complaint bad) :: out).
    cbn [app]. rewrite (loop_skip _ _ Hbad), Heq. cbn [after app].
    repeat split; [exact Hev|].
    change (Say ask_prompt :: Say (complaint bad) :: out)
      with ([Say ask_prompt] ++ [Say (complaint bad)] ++ out)%list.
    rewrite !prompts_app, prompt_counts, complaint_silent, Hpr. reflexivity.
Qed.

Lemma loop_all_rejected (lines : list string) :
  Forall (rejected accept) lines ->
  exists out,
    loop lines = (out, Uncaught EOFError, []) /\
    tool_events out = [] /\
    prompts out = S (List.length lines).
Proof.
  intros Hall. induction Hall as [|bad lines Hbad _ IH].
  - exists [Say ask_prompt]. rewrite loop_eof. repeat split.
    exact prompt_counts.
  - destruct IH as [out [Heq [Hev Hpr]]].
    exists (Say ask_prompt :: Say (complaint bad) :: out).
    rewrite (loop_skip _ _ Hbad), Heq. cbn [after app].
    repeat split; [exact Hev|].
    change (Say ask_prompt :: Say (complaint bad) :: out)
      with ([Say ask_prompt] ++ [Say (complaint bad)] ++ out)%list.
    rewrite !prompts_app, prompt_counts, complaint_silent, Hpr. reflexivity.
Qed.

(** Every list of lines is of one of the two kinds. *)
Lemma lines_split (lines : list string) :
  Forall (rejected accept) lines \/
  exists skipped line rest a,
    lines = (skipped ++ line :: rest)%list /\
    Forall (rejected accept) skipped /\ accept line = Some a.
Proof.
  induction lines as [|line lines IH]; [left; constructor|].
  destruct (accept line) as [a|] eqn:Hline.
  - right. exists [], line, lines, a. repeat split; [constructor|exact Hline].
  - destruct IH as [Hall|[skipped [l [rest [a [-> [Hskip Hl]]]]]]].
    + left. now constructor.
    + right. exists (line :: skipped), l, rest, a.
      repeat split; [now constructor|exact Hl].
Qed.

Lemma loop_done_inv (lines : list string) (out : list Output) (a : A)
    (rest : list string) :
  loop lines = (out, Done a, rest) ->
  exists skipped line,
    lines = (skipped ++ line :: rest)%list /\
    Forall (rejected accept) skipped /\ accept line = Some a /\
    tool_events out = [] /\ prompts out = S (List.length skipped).
Proof.
  intros Hrun. destruct (lines_split lines)
    as [Hall|[skipped [line [rest' [a' [-> [Hskip Hline]]]]]]].
  - destruct (loop_all_rejected lines Hall) as [out' [Heq _]].
    rewrite Heq in Hrun. discriminate Hrun.
  - destruct (loop_first_accepted skipped line rest' a' Hskip Hline)
      as [out' [Heq [Hev Hpr]]].
    rewrite Heq in Hrun. injection Hrun as <- <- <-.
    exists skipped, line. auto.
Qed.

Lemma loop_uncaught_inv (lines : list string) (out : list Output)
    (e : Exception) (rest : list string) :
  loop lines = (out, Uncaught e, rest) ->
  e = EOFError /\ rest = [] /\ Forall (rejected accept) lines /\
  tool_events out = [] /\ prompts out = S (List.length lines).
Proof.
  intros Hrun. destruct (lines_split lines)
    as [Hall|[skipped [line [rest' [a' [-> [Hskip Hline]]]]]]].
  - destruct (loop_all_rejected lines Hall) as [out' [Heq [Hev Hpr]]].
    rewrite Heq in Hrun. injection Hrun as <- <- <-. auto.
  - destruct (loop_first_accepted skipped line rest' a' Hskip Hline)
      as [out' [Heq _]].
    rewrite Heq in Hrun. discriminate Hrun.
Qed.

Lemma loop_silent (lines : list string) :
  tool_events (fst (fst (loop lines))) = [].
Proof.
  destruct (loop lines) as [[out [a|e]] rest] eqn:Hrun; cbn [fst].
  - now destruct (loop_done_inv _ _ _ _ Hrun) as [? [? [_ [_ [_ [H _]]]]]].
  - now destruct (loop_uncaught_inv _ _ _ _ Hrun) as [_ [_ [_ [H _]]]].
Qed.

End Ask_loop.

Section Dialogue_facts.

Variable py_int : string -> option Z.

(** The complaint of the first loop: the range message for an integer,
    the number message for anything else. *)
Let size_complaint (line : string) : Said :=
  match py_int line with
  | Some _ => SayFontSizeRange
  | None => SayInvalidNumber
  end.

Lemma ask_font_size_take (line : string) (rest : list string) (n : Z) :
  accept_font_size py_int line = Some n ->
  ask_font_size py_int (line :: rest) = ([Say AskFontSize], Done n, rest).
Proof.
  unfold accept_font_size. cbn [ask_font_size].
  destruct (py_int line) as [m|]; [|discriminate].
  destruct ((10 <=? m) && (m <=? 200)); [|discriminate].
  now intros [= ->].
Qed.

Lemma ask_font_size_skip (line : string) (rest : list string) :
  accept_font_size py_int line = None ->
  ask_font_size py_int (line :: rest)
  = after [Say AskFontSize; Say (size_complaint line)]
      (ask_font_size py_int rest).
Proof.
  unfold accept_font_size, size_complaint. cbn [ask_font_size].
  destruct (py_int line) as [m|]; [|reflexivity].
  destruct ((10 <=? m) && (m <=? 200)); [discriminate|reflexivity].
Qed.

Lemma size_complaint_silent (line : string) :
  prompts [Say (size_complaint line)] = 0%nat.
Proof. unfold size_complaint. now destruct (py_int line). Qed.

Lemma ask_color_take (line : string) (rest : list string) (color : RGB) :
  accept_color line = Some color ->
  ask_color (line :: rest) = ([Say AskColor], Done color, rest).
Proof.
  unfold accept_color. cbn [ask_color].
  destruct (dict_get line colors) as [[name c]|]; [|discriminate].
  now intros [= ->].
Qed.

Lemma ask_color_skip (line : string) (rest : list string) :
  accept_color line = None ->
  ask_color (line :: rest)
  = after [Say AskColor; Say SayInvalidColor] (ask_color rest).
Proof.
  unfold accept_color. cbn [ask_color].
  destruct (dict_get line colors) as [[name c]|]; [discriminate|reflexivity].
Qed.

Lemma ask_position_take (line : string) (rest : list string)
    (position : string) :
  accept_position line = Some position ->
  ask_position (line :: rest) = ([Say AskPosition], Done position, rest).
Proof.
  unfold accept_position. cbn [ask_position].
  destruct (dict_get line positions) as [[name p]|]; [|discriminate].
  now intros [= ->].
Qed.

Lemma ask_position_skip (line : string) (rest : list string) :
  accept_position line = None ->
  ask_position (line :: rest)
  = after [Say AskPosition; Say SayInvalidPosition] (ask_position rest).
Proof.
  unfold accept_position. cbn [ask_position].
  destruct (dict_get line positions) as [[name p]|];
    [discriminate|reflexivity].
Qed.

Let size_loop := loop_done_inv (ask_font_size py_int)
  (accept_font_size py_int) AskFontSize size_complaint eq_refl
  size_complaint_silent eq_refl ask_font_size_take ask_font_size_skip.

Let menu {V : Type} (d : list (string * (string * V))) : list Output :=
  map (fun item => Say (SayOption (fst item) (fst (snd item)))) d.

Lemma get_user_preferences_run (lines : list string) :
  get_user_preferences py_int lines
  = match ask_font_size py_int lines with
    | (o1, Done font_size, r1) =>
        match ask_color r1 with
        | (o2, Done color, r2) =>
            match ask_position r2 with
            | (o3, Done position, r3) =>
                ((Say SaySettings :: o1)
                 ++ (Say SayColorOptions :: menu colors ++ o2)
                 ++ (Say SayPositionOptions :: menu positions ++ o3),
                 Done (font_size, color, position), r3)
            | (o3, Uncaught e, r3) =>
                ((Say SaySettings :: o1)
                 ++ (Say SayColorOptions :: menu colors ++ o2)
                 ++ (Say SayPositionOptions :: menu positions ++ o3),
                 Uncaught e, r3)
            end
        | (o2, Uncaught e, r2) =>
            ((Say SaySettings :: o1)
             ++ (Say SayColorOptions :: menu colors ++ o2),
             Uncaught e, r2)
        end
    | (o1, Uncaught e, r1) => (Say SaySettings :: o1, Uncaught e, r1)
    end%list.
Proof.
  unfold get_user_preferences, console_bind, say, say_options, console_ret.
  destruct (ask_font_size py_int lines) as [[o1 [font_size|e]] r1];
    [|reflexivity].
  destruct (ask_color r1) as [[o2 [color|e]] r2];
    [|cbn [app]; now rewrite ?app_nil_r].
  destruct (ask_position r2) as [[o3 [position|e]] r3];
    cbn [app]; now rewrite ?app_nil_r.
Qed.

Lemma dict_get_In {V : Type} (key : string) (d : list (string * V)) (v : V) :
  dict_get key d = Some v -> In (key, v) d.
Proof.
  induction d as [|[k v'] d IH]; [discriminate|]. cbn [dict_get].
  destruct (String.eqb_spec key k) as [->|_].
  - intros [= ->]. now left.
  - intros H. right. now apply IH.
Qed.

Lemma accept_font_size_range (line : string) (font_size : Z) :
  accept_font_size py_int line = Some font_size -> 10 <= font_size <= 200.
Proof.
  unfold accept_font_size. destruct (py_int line) as [m|]; [|discriminate].
  destruct ((10 <=? m) && (m <=? 200)) eqn:Hr; [|discriminate].
  intros [= <-]. apply andb_true_iff in Hr. lia.
Qed.

Lemma accept_color_offered (line : string) (color : RGB) :
  accept_color line = Some color ->
  In color (map (fun item => snd (snd item)) colors).
Proof.
  unfold accept_color.
  destruct (dict_get line colors) as [[name c]|] eqn:Hget; [|discriminate].
  intros [= <-]. apply dict_get_In in Hget.
  now apply (in_map (fun item => snd (snd item))) in Hget.
Qed.

Lemma accept_position_known (line position : string) :
  accept_position line = Some position -> In position known_anchors.
Proof.
  unfold accept_position.
  destruct (dict_get line positions) as [[name p]|] eqn:Hget; [|discriminate].
  intros [= <-]. apply dict_get_In in Hget.
  cbn in Hget. cbn.
  repeat (destruct Hget as [[= _ _ <-]|Hget]; [tauto|]). contradiction.
Qed.

Lemma tool_events_menu {V : Type} (d : list (string * (string * V))) :
  tool_events (menu d) = [].
Proof. induction d as [|item d IH]; [reflexivity|exact IH]. Qed.

Lemma get_user_preferences_silent (lines : list string) :
  tool_events (fst (fst (get_user_preferences py_int lines))) = [].
Proof.
  rewrite get_user_preferences_run.
  pose proof (loop_silent (ask_font_size py_int) (accept_font_size py_int)
                AskFontSize size_complaint eq_refl size_complaint_silent
                eq_refl ask_font_size_take ask_font_size_skip lines) as H1.
  destruct (ask_font_size py_int lines) as [[o1 [fs|e]] r1];
    cbn [fst] in *; [|exact H1].
  pose proof (loop_silent ask_color accept_color AskColor
                (fun _ => SayInvalidColor) eq_refl (fun _ => eq_refl) eq_refl
                ask_color_take ask_color_skip r1) as H2.
  destruct (ask_color r1) as [[o2 [c|e]] r2]; cbn [fst] in *.
  - pose proof (loop_silent ask_position accept_position AskPosition
                  (fun _ => SayInvalidPosition) eq_refl (fun _ => eq_refl)
                  eq_refl ask_position_take ask_position_skip r2) as H3.
    destruct (ask_position r2) as [[o3 [p|e]] r3]; cbn [fst] in *;
      rewrite !tool_events_app; cbn [tool_events];
      rewrite !tool_events_app, !tool_events_menu, H1, H2, H3; reflexivity.
  - rewrite !tool_events_app; cbn [tool_events].
    rewrite !tool_events_app, !tool_events_menu, H1, H2. reflexivity.
Qed.

End Dialogue_facts.

(** X1: whatever is typed, the preferences that the dialogue returns are
    a font size within 10..200, one of the six colours of the menu and
    one of the five anchors that [calculate_watermark_position]
    recognises; and the dialogue itself creates and writes nothing. *)
Theorem preferences_are_valid :
  forall (py_int : string -> option Z) (lines : list string)
         (out : list Output) (font_size : Z) (color : RGB)
         (position : string) (rest : list string),
    get_user_preferences py_int lines
    = (out, Done (font_size, color, position), rest) ->
    10 <= font_size <= 200 /\
    In color (map (fun item => snd (snd item)) colors) /\
    In position known_anchors /\
    tool_events out = [].
Proof.
  intros py_int lines out font_size color position rest Hrun.
  rewrite get_user_preferences_run in Hrun.
  destruct (ask_font_size py_int lines) as [[o1 [fs|e]] r1] eqn:H1;
    [|discriminate].
  destruct (ask_color r1) as [[o2 [c|e]] r2] eqn:H2; [|discriminate].
  destruct (ask_position r2) as [[o3 [p|e]] r3] eqn:H3; [|discriminate].
  injection Hrun as <- <- <- <- <-.
  destruct (loop_done_inv (ask_font_size py_int) (accept_font_size py_int)
              AskFontSize _ eq_refl (size_complaint_silent py_int) eq_refl
              (ask_font_size_take py_int) (ask_font_size_skip py_int)
              _ _ _ _ H1) as [s1 [l1 [_ [_ [Ha1 [Hev1 _]]]]]].
  destruct (loop_done_inv ask_color accept_color AskColor
              (fun _ => SayInvalidColor) eq_refl (fun _ => eq_refl) eq_refl
              ask_color_take ask_color_skip _ _ _ _ H2)
    as [s2 [l2 [_ [_ [Ha2 [Hev2 _]]]]]].
  destruct (loop_done_inv ask_position accept_position AskPosition
              (fun _ => SayInvalidPosition) eq_refl (fun _ => eq_refl)
              eq_refl ask_position_take ask_position_skip _ _ _ _ H3)
    as [s3 [l3 [_ [_ [Ha3 [Hev3 _]]]]]].
  split; [now apply (accept_font_size_range py_int l1)|].
  split; [now apply (accept_color_offered l2)|].
  split; [now apply (accept_position_known l3)|].
  pose proof (get_user_preferences_silent py_int lines) as Hsil.
  rewrite get_user_preferences_run, H1, H2, H3 in Hsil. exact Hsil.
Qed.

Lemma preferences_are_valid_witness :
  10 <= 36 <= 200 /\
  In (255, 255, 255) (map (fun item => snd (snd item)) colors) /\
  In "bottom-right" known_anchors.
Proof.
  destruct (preferences_are_valid sample_int
              ["abc"; "5"; "36"; "9"; "1"; "7"; "4"; "extra"]
              _ 36 (255, 255, 255) "bottom-right" ["extra"] eq_refl)
    as [H1 [H2 [H3 _]]].
  auto.
Defined.

Section Dialogue_answers.

Variable py_int : string -> option Z.




End Dialogue_answers.




(** ** The whole run *)

Section Whole_run.

Variable w : World.

(** The steps of [process_images] after the dialogue: the directory is
    created, the loop runs, and the two closing lines are printed unless
    an exception ends the run before. *)
Lemma watermark_files_run (directory : string) (image_files : list string)
    (font_size : Z) (color : RGB) (position : string) :
  let output_dir := path_join directory "_watermark" in
  watermark_files w directory image_files font_size color position
  = if os_makedirs w output_dir then
      match
        process_each w output_dir font_size color position image_files 0
      with
      | (t, Return success_count) =>
          let summary :=
            Print (MsgSummary success_count (List.length image_files)) in
          if negb (stdout_strict w) || encodable output_dir
          then ((MakeDirs output_dir :: t
                 ++ [summary; Print (MsgOutputDir output_dir)])%list,
                Return tt)
          else ((MakeDirs output_dir :: t ++ [summary])%list, Raise)
      | (t, Raise) => (MakeDirs output_dir :: t, Raise)
      end
    else ([Print MsgMakedirsFailed], Return tt).
Proof.
  cbv zeta. unfold watermark_files.
  destruct (os_makedirs w (path_join directory "_watermark")); [|reflexivity].
  cbn [attempt]. rewrite !bind_ret.
  cbn [bind emit try_except ret].
  destruct (process_each w (path_join directory "_watermark") font_size color
              position image_files 0) as [t [success_count|]];
    [|reflexivity].
  cbn [app]. unfold print_text.
  destruct (negb (stdout_strict w)
            || encodable (path_join directory "_watermark")); reflexivity.
Qed.

End Whole_run.

Lemma console_bind_ret {A B : Type} (a : A) (f : A -> Console B)
    (lines : list string) :
  console_bind (console_ret a) f lines = f a lines.
Proof.
  unfold console_bind, console_ret.
  now destruct (f a lines) as [[out e] rest].
Qed.


Section Console_facts.

Variable py_int : string -> option Z.
Variable os_path_isdir : string -> bool.
Variable w : World.

Lemma process_images_console_run (directory : string) (lines : list string) :
  process_images_console py_int w directory lines
  = match get_image_files w directory with
    | (t0, Return []) =>
        (map Tool (t0 ++ [Print MsgNoImages]), Done tt, lines)
    | (t0, Return (image_path :: rest_files)) =>
        let image_files := image_path :: rest_files in
        match get_user_preferences py_int lines with
        | (said, Done (font_size, color, position), rest) =>
            match watermark_files w directory image_files font_size color
                    position with
            | (t1, Return _) =>
                ((map Tool (t0 ++ [Print (MsgFound (List.length image_files))])
                  ++ said ++ map Tool t1)%list, Done tt, rest)
            | (t1, Raise) =>
                ((map Tool (t0 ++ [Print (MsgFound (List.length image_files))])
                  ++ said ++ map Tool t1)%list, Uncaught ToolError, rest)
            end
        | (said, Uncaught e, rest) =>
            ((map Tool (t0 ++ [Print (MsgFound (List.length image_files))])
              ++ said)%list, Uncaught e, rest)
        end
    | (t0, Raise) => (map Tool t0, Uncaught ToolError, lines)
    end.
Proof.
  unfold process_images_console, console_bind, lift.
  destruct (get_image_files w directory) as [t0 [[|image_path rest_files]|]];
    cbn [print emit].
  - rewrite map_app. reflexivity.
  - cbv zeta. rewrite map_app. cbn [map].
    destruct (get_user_preferences py_int lines)
      as [[said [[[font_size color] position]|e]] rest].
    + destruct (watermark_files w directory (image_path :: rest_files)
                  font_size color position) as [t1 [[]|]];
        now rewrite <- !app_assoc.
    + now rewrite <- app_assoc.
  - reflexivity.
Qed.

(** The run on a directory that lists and holds an image, once the
    dialogue has given the preferences: the tool reports the number of
    images, the dialogue takes place, and the tool goes on with the
    files. *)
Lemma process_images_console_files (directory : string)
    (filenames lines : list string) (said : list Output) (font_size : Z)
    (color : RGB) (position : string) (rest : list string) :
  os_listdir w directory = Some filenames ->
  filter selected filenames <> [] ->
  get_user_preferences py_int lines
  = (said, Done (font_size, color, position), rest) ->
  let image_files := map (path_join directory) (filter selected filenames) in
  let m := watermark_files w directory image_files font_size color position in
  process_images_console py_int w directory lines
  = ((Tool (Print (MsgFound (List.length image_files))) :: said
      ++ map Tool (trace m))%list,
     match outcome m with
     | Return _ => Done tt
     | Raise => Uncaught ToolError
     end, rest).
Proof.
  intros Hlist Hsome Hprefs. cbv zeta.
  rewrite process_images_console_run, get_image_files_run, Hlist, Hprefs.
  destruct (filter selected filenames) as [|name names]; [now elim Hsome|].
  cbn [map]. cbv zeta.
  destruct (watermark_files w directory
              (path_join directory name :: map (path_join directory) names)
              font_size color position) as [t1 [[]|]]; reflexivity.
Qed.

End Console_facts.

Lemma reached_prefix (w : World) (output_dir : string) (font_size : Z)
    (color : RGB) (position : string) (image_files : list string) :
  exists behind,
    image_files
    = (reached w output_dir font_size color position image_files
       ++ behind)%list.
Proof.
  induction image_files as [|image_path rest [behind IH]]; [now exists []|].
  cbn [reached].
  destruct (outcome (process_one w output_dir font_size color position
                       image_path)).
  - exists behind. cbn [app]. now rewrite <- IH.
  - now exists rest.
Qed.

(** C7: a failure on one file is not always contained.  Where standard
    output is strict, a file whose name is not valid UTF-8 ends the whole
    loop with an exception when its turn comes: the [print] of line 61 or
    the one of line 230, which hold its name, raises [UnicodeEncodeError]
    outside any handler of the loop, so that the file is not skipped and
    no file after it is announced, handled or written.  The handler of [add_watermark] fails in the same way on an
    image that cannot be opened and whose path is not valid UTF-8: its
    [print] of line 197 raises and the exception leaves
    [add_watermark]. *)
Theorem non_utf8_name_ends_the_run :
  forall (w : World) (output_dir : string) (font_size : Z) (color : RGB)
         (position image_path : string),
    stdout_strict w = true ->
    (encodable (basename image_path) = false ->
     forall (rest : list string) (success_count : nat),
       let m := process_each w output_dir font_size color position
                  (image_path :: rest) success_count in
       outcome m = Raise /\
       saved_files (trace m) = [] /\
       processed_names (trace m) = []) /\
    (encodable image_path = false ->
     Image_open w image_path = None ->
     forall watermark_text output_path,
       add_watermark w image_path watermark_text font_size color position
         output_path
       = ([], Raise)).
Proof.
  intros w output_dir font_size color position image_path Hstrict. split.
  - intros Hname rest n. cbv zeta. cbn [process_each].
    destruct (quiet_get_exif_date w image_path) as [Hs Hp].
    rewrite outcome_bind, trace_bind.
    destruct (outcome (get_exif_date w image_path)) as [watermark_text|];
      [|now repeat split].
    rewrite Hname. cbn [andb]. rewrite print_text_strict by exact Hstrict.
    cbn [bind raise outcome trace fst snd]. rewrite app_nil_r.
    now repeat split.
  - intros Hpath Hopen watermark_text output_path.
    unfold add_watermark. rewrite Hopen, Hpath.
    rewrite print_text_strict by exact Hstrict. reflexivity.
Qed.

Lemma non_utf8_name_ends_the_run_witness :
  let m := process_each sample_legacy "old/_watermark" 36 (255, 255, 255)
             "bottom-right" ["old/" ++ cafe_jpg; "old/ok.jpg"] 0 in
  outcome m = Raise /\
  saved_files (trace m) = [] /\
  processed_names (trace m) = [].
Proof.
  exact (proj1 (non_utf8_name_ends_the_run sample_legacy "old/_watermark" 36
                  (255, 255, 255) "bottom-right" ("old/" ++ cafe_jpg)
                  eq_refl)
           eq_refl ["old/ok.jpg"] 0%nat).
Defined.

(** C8: when the directory is listed (its entries are single path
    components), the prompts are answered and the output directory is
    created, the files written by the run are, one for each input that is
    successfully processed and in the same order, the output path of
    that input; the inputs that the loop takes in turn are the selected
    files of the listing, or an initial part of them when an exception
    ends the loop; and the output path of an input is the path made of the
    directory joined with [_watermark], a separator, and the file name of
    the input. *)
Theorem one_output_per_processed_input :
  forall (py_int : string -> option Z) (w : World) (directory : string)
         (filenames lines : list string) (said : list Output)
         (font_size : Z) (color : RGB) (position : string)
         (rest : list string),
    os_listdir w directory = Some filenames ->
    (forall filename, In filename filenames -> contains_sep filename = false) ->
    get_user_preferences py_int lines
    = (said, Done (font_size, color, position), rest) ->
    os_makedirs w (path_join directory "_watermark") = true ->
    let output_dir := path_join directory "_watermark" in
    let image_files := map (path_join directory) (filter selected filenames) in
    let taken := reached w output_dir font_size color position image_files in
    let '(out, _, _) := process_images_console py_int w directory lines in
    saved_files (tool_events out)
    = map (output_path_of output_dir)
        (filter (processed_ok w output_dir font_size color position) taken)
    /\
    (exists behind, image_files = (taken ++ behind)%list) /\
    (forall filename,
        In filename filenames ->
        output_path_of output_dir (path_join directory filename)
        = output_dir ++ "/" ++ filename /\
        basename (path_join directory filename) = filename /\
        basename (output_dir ++ "/" ++ filename) = filename).
Proof.
  intros py_int w directory filenames lines said font_size color position
    rest Hlist Hbare Hprefs Hmk. cbv zeta.
  assert (Hnames : forall filename,
             In filename filenames ->
             output_path_of (path_join directory "_watermark")
               (path_join directory filename)
             = path_join directory "_watermark" ++ "/" ++ filename /\
             basename (path_join directory filename) = filename /\
             basename (path_join directory "_watermark" ++ "/" ++ filename)
             = filename).
  { intros filename Hin. pose proof (Hbare filename Hin) as Hf.
    unfold output_path_of. rewrite (basename_path_join directory filename Hf).
    split; [now apply path_join_output_dir|]. split; [reflexivity|].
    cbn [String.append]. now apply basename_app_sep. }
  pose proof (get_user_preferences_silent py_int lines) as Hsil.
  rewrite Hprefs in Hsil. cbn [fst] in Hsil.
  destruct (filter selected filenames) as [|name names] eqn:Hsel.
  - rewrite process_images_console_run, get_image_files_run, Hlist, Hsel.
    cbn. split; [reflexivity|]. split; [now exists []|exact Hnames].
  - rewrite <- Hsel.
    rewrite (process_images_console_files py_int w directory filenames lines
               said font_size color position rest Hlist
               ltac:(rewrite Hsel; discriminate) Hprefs).
    split; [|split; [apply reached_prefix|exact Hnames]].
    cbn [tool_events]. rewrite tool_events_app, Hsil, tool_events_map_Tool.
    cbn [app]. rewrite watermark_files_run. cbv zeta. rewrite Hmk.
    pose proof (process_each_run w (path_join directory "_watermark")
                  font_size color position
                  (map (path_join directory) (filter selected filenames))
                  0%nat) as [Hsaved _].
    cbv zeta in Hsaved.
    destruct (process_each w (path_join directory "_watermark") font_size
                color position
                (map (path_join directory) (filter selected filenames)) 0)
      as [t [count|]]; cbn [trace fst] in Hsaved.
    + destruct (negb (stdout_strict w)
                || encodable (path_join directory "_watermark"));
        cbn [trace fst saved_files]; rewrite saved_files_app, Hsaved;
        cbn [saved_files]; apply app_nil_r.
    + exact Hsaved.
Qed.

Lemma one_output_per_processed_input_witness :
  let '(out, _, _) :=
    process_images_console sample_int sample_world "photos"
      ["36"; "1"; "4"] in
  saved_files (tool_events out)
  = ["photos/_watermark/a.jpg"; "photos/_watermark/orig.jpg";
     "photos/_watermark/PHOTO.JPG"].
Proof.
  refine (proj1 (one_output_per_processed_input sample_int sample_world
                   "photos"
                   ["a.jpg"; "notes.txt"; "broken.PNG"; "orig.jpg";
                    "PHOTO.JPG"]
                   ["36"; "1"; "4"] _ 36 (255, 255, 255) "bottom-right" []
                   eq_refl _ eq_refl eq_refl)).
  intros filename [<-|[<-|[<-|[<-|[<-|[]]]]]]; reflexivity.
Defined.

(** X4: a directory-level failure ends the run before any image is
    touched.  When the directory cannot be listed the tool reports it and
    then reports that no image was found; when no listed name is
    selected it reports only that; in both cases nothing is asked and no
    line of the input is read.  When images are found and the dialogue
    gives the preferences but the output directory cannot be created,
    the tool reports the number of images found and, after the dialogue,
    the failure.  In each case this is the whole output: nothing is
    created, announced for processing or saved, and [process_images]
    returns. *)
Theorem directory_failures_end_the_run :
  forall (py_int : string -> option Z) (w : World) (directory : string)
         (lines : list string),
    (os_listdir w directory = None ->
     process_images_console py_int w directory lines
     = ([Tool (Print MsgListdirFailed); Tool (Print MsgNoImages)],
        Done tt, lines)) /\
    (forall filenames,
        os_listdir w directory = Some filenames ->
        filter selected filenames = [] ->
        process_images_console py_int w directory lines
        = ([Tool (Print MsgNoImages)], Done tt, lines)) /\
    (forall filenames said font_size color position rest,
        os_listdir w directory = Some filenames ->
        filter selected filenames <> [] ->
        get_user_preferences py_int lines
        = (said, Done (font_size, color, position), rest) ->
        os_makedirs w (path_join directory "_watermark") = false ->
        process_images_console py_int w directory lines
        = ((Tool (Print (MsgFound (List.length (filter selected filenames))))
              :: said ++ [Tool (Print MsgMakedirsFailed)])%list,
           Done tt, rest)).
Proof.
  intros py_int w directory lines. split; [|split].
  - intros Hlist.
    now rewrite process_images_console_run, get_image_files_run, Hlist.
  - intros filenames Hlist Hsel.
    now rewrite process_images_console_run, get_image_files_run, Hlist, Hsel.
  - intros filenames said font_size color position rest Hlist Hsome Hprefs
      Hmk.
    rewrite (process_images_console_files py_int w directory filenames lines
               said font_size color position rest Hlist Hsome Hprefs).
    rewrite watermark_files_run. cbv zeta. rewrite Hmk.
    cbn [trace outcome fst snd map]. now rewrite length_map.
Qed.

Lemma directory_failures_end_the_run_witness :
  process_images_console sample_int sample_world "nowhere" ["36"; "1"; "4"]
  = ([Tool (Print MsgListdirFailed); Tool (Print MsgNoImages)], Done tt,
     ["36"; "1"; "4"]) /\
  process_images_console sample_int sample_readonly "texts" ["36"; "1"; "4"]
  = ([Tool (Print MsgNoImages)], Done tt, ["36"; "1"; "4"]) /\
  exists said,
    process_images_console sample_int sample_readonly "photos"
      ["36"; "1"; "4"]
    = ((Tool (Print (MsgFound 4)) :: said
        ++ [Tool (Print MsgMakedirsFailed)])%list, Done tt, []).
Proof.
  split; [|split].
  - exact (proj1 (directory_failures_end_the_run sample_int sample_world
                    "nowhere" ["36"; "1"; "4"]) eq_refl).
  - exact (proj1 (proj2 (directory_failures_end_the_run sample_int
                           sample_readonly "texts" ["36"; "1"; "4"]))
             ["notes.txt"; "a.jpg.bak"] eq_refl eq_refl).
  - eexists.
    refine (proj2 (proj2 (directory_failures_end_the_run sample_int
                            sample_readonly "photos" ["36"; "1"; "4"]))
              ["a.jpg"; "notes.txt"; "broken.PNG"; "orig.jpg"; "PHOTO.JPG"]
              _ 36 (255, 255, 255) "bottom-right" []
              eq_refl _ eq_refl eq_refl).
    discriminate.
Defined.

(** X6: from the command line to the tool.  When the directory given
    exists and is a directory, [main] prints nothing of its own and does
    what [process_images] does on that directory: the same output, the
    same ending, the same lines read. *)
Theorem main_runs_process_images :
  forall (py_int : string -> option Z) (os_path_isdir : string -> bool)
         (w : World) (directory : string) (lines : list string),
    directory <> "" ->
    os_path_exists w directory = true ->
    os_path_isdir directory = true ->
    main py_int os_path_isdir w (Some directory) lines
    = process_images_console py_int w directory lines.
Proof.
  intros py_int os_path_isdir w directory lines Hne Hex Hdir.
  destruct directory as [|c r]; [now elim Hne|].
  unfold main. rewrite console_bind_ret, Hex, Hdir. reflexivity.
Qed.

Lemma main_runs_process_images_witness :
  main sample_int sample_isdir sample_shell (Some "photos")
    ["abc"; "36"; "1"; "4"]
  = process_images_console sample_int sample_shell "photos"
      ["abc"; "36"; "1"; "4"].
Proof.
  exact (main_runs_process_images sample_int sample_isdir sample_shell
           "photos" ["abc"; "36"; "1"; "4"]
           ltac:(discriminate) eq_refl eq_refl).
Defined.




(** ** Lines that can be printed *)

Lemma encodable_ascii (s : string) : ascii_only s = true -> encodable s = true.
Proof.
  unfold ascii_only, encodable, decode.
  induction s as [|a r IH]; [reflexivity|].
  cbn [list_ascii_of_string forallb decode_from]. intros H.
  apply andb_true_iff in H. destruct H as [Ha Hr].
  unfold lead. rewrite Ha. cbn [app encodable_text forallb].
  fold (encodable_text (decode_from Idle r)). rewrite (IH Hr).
  apply N.ltb_lt in Ha. unfold is_escape, within.
  destruct (N.leb_spec 56448 (N_of_ascii a)); [lia|reflexivity].
Qed.

Lemma digit_of_ascii (z : Z) : (N_of_ascii (digit_of z) <? 128)%N = true.
Proof.
  unfold digit_of.
  assert (H : 0 <= z mod 10 < 10) by (apply Z.mod_pos_bound; lia).
  destruct (z mod 10) as [|p|p]; [reflexivity| |lia].
  do 4 (destruct p as [p|p|]; try lia; try reflexivity).
Qed.

(** A date as [strftime] prints it is digits and hyphens. *)
Lemma strftime_ymd_encodable (pads_year : bool) (date_obj : datetime) :
  encodable (strftime_ymd pads_year date_obj) = true.
Proof.
  apply encodable_ascii. unfold ascii_only, strftime_ymd, decimal, pad4, pad2.
  destruct pads_year;
    [|destruct (dt_year date_obj <? 10);
      [|destruct (dt_year date_obj <? 100);
        [|destruct (dt_year date_obj <? 1000)]]];
    cbn [String.append list_ascii_of_string forallb];
    rewrite !digit_of_ascii; reflexivity.
Qed.

Lemma match_classes_suffix (ks : list char_class) :
  forall s m rest,
    match_classes ks s = Some (m, rest) -> s = (m ++ rest)%list.
Proof.
  induction ks as [|k ks IH]; intros s m rest; cbn [match_classes].
  - now intros [= <- <-].
  - destruct s as [|c r]; [discriminate|].
    destruct (class_matches k c); [|discriminate].
    destruct (match_classes ks r) as [[m' rest']|] eqn:Hm; [|discriminate].
    intros [= <- <-]. cbn [app]. now rewrite (IH _ _ _ Hm).
Qed.

Lemma spaces_splits_suffix (s : list N) :
  forall r, In r (spaces_splits s) -> exists pre, s = (pre ++ r)%list.
Proof.
  induction s as [|c s IH]; intros r; cbn [spaces_splits]; [intros []|].
  destruct (whitespace c); [|intros []].
  intros Hin. apply in_app_or in Hin. destruct Hin as [Hin|[<-|[]]].
  - destruct (IH r Hin) as [pre ->]. now exists (c :: pre).
  - now exists [c].
Qed.

Lemma first_some_In {A B : Type} (f : A -> option B) (l : list A) (b : B) :
  first_some f l = Some b -> exists a, In a l /\ f a = Some b.
Proof.
  induction l as [|a l IH]; cbn [first_some]; [discriminate|].
  destruct (f a) as [b'|] eqn:Hf.
  - intros [= ->]. exists a. split; [now left|exact Hf].
  - intros H. destruct (IH H) as [a' [Hin Ha']]. exists a'.
    split; [now right|exact Ha'].
Qed.

(** What a match leaves over is the end of the text. *)
Lemma match_items_suffix (items : list regex_item) :
  forall s groups rest,
    match_items items s = Some (groups, rest) ->
    exists pre, s = (pre ++ rest)%list.
Proof.
  induction items as [|item k IH]; intros s groups rest; cbn [match_items].
  - intros [= _ <-]. now exists [].
  - destruct item as [alternatives|c|].
    + intros H. apply first_some_In in H. destruct H as [alt [_ H]].
      destruct (match_classes alt s) as [[m r]|] eqn:Hm; [|discriminate].
      destruct (match_items k r) as [[groups' rest']|] eqn:Hk;
        [|discriminate].
      cbn [push] in H. injection H as _ <-.
      destruct (IH _ _ _ Hk) as [pre ->].
      exists (m ++ pre)%list.
      rewrite (match_classes_suffix _ _ _ _ Hm). now rewrite app_assoc.
    + destruct s as [|c' r]; [discriminate|].
      destruct (N_of_ascii c =? c')%N; [|discriminate].
      intros H. destruct (IH _ _ _ H) as [pre ->]. now exists (c' :: pre).
    + intros H. apply first_some_In in H. destruct H as [r [Hin H]].
      destruct (spaces_splits_suffix s r Hin) as [pre1 ->].
      destruct (IH _ _ _ H) as [pre2 ->].
      exists (pre1 ++ pre2)%list. now rewrite app_assoc.
Qed.

Lemma strptime_exif_unconverted (s : string) (rest : list N) :
  strptime_exif s = Unconverted rest ->
  exists pre, decode s = (pre ++ rest)%list.
Proof.
  unfold strptime_exif.
  destruct (match_items exif_format_regex (decode s)) as [[groups left]|]
    eqn:Hm; [|discriminate].
  apply match_items_suffix in Hm. destruct Hm as [pre Hpre].
  intros H. exists pre. rewrite Hpre. f_equal.
  destruct left as [|c left'].
  - do 7 (destruct groups as [|? groups]; try discriminate H).
    destruct (datetime_new _ _ _ _ _ _); discriminate H.
  - do 7 (destruct groups as [|? groups]; try (now injection H)).
Qed.

(** The text of the error of a parse can be encoded when the value
    can. *)
Lemma strptime_text_encodable (s : string) (text_encodable : bool) :
  encodable s = true ->
  strptime (ExifStr s) = Except text_encodable -> text_encodable = true.
Proof.
  intros Hs. cbn [strptime].
  destruct (strptime_exif s) as [date_obj| |rest|] eqn:Hparse;
    try discriminate; try (now intros [= <-]).
  intros [= <-].
  destruct (strptime_exif_unconverted s rest Hparse) as [pre Hpre].
  unfold encodable in Hs. rewrite Hpre in Hs.
  unfold encodable_text in *. rewrite forallb_app in Hs.
  now apply andb_true_iff in Hs.
Qed.

Section Printing_facts.

Variable w : World.

Lemma read_exif_date_text (image_path : string) (text_encodable : bool) :
  (forall img items tag s,
      Image_open w image_path = Some img ->
      im_getexif img = Some (Some items) ->
      In (tag, ExifStr s) items ->
      encodable s = true) ->
  read_exif_date w image_path = Except text_encodable ->
  text_encodable = true.
Proof.
  intros Hexif. unfold read_exif_date.
  destruct (Image_open w image_path) as [img|]; [|now intros [= <-]].
  cbn [try_call try_bind].
  destruct (im_getexif img) as [[items|]|] eqn:Hget;
    cbn [try_call try_bind]; [|discriminate|now intros [= <-]].
  assert (Hscan : scan_exif w items = Except text_encodable ->
                  text_encodable = true).
  { rewrite scan_exif_find.
    destruct (find (is_DateTime_item w) items) as [[tag value]|] eqn:Hfind;
      [|discriminate].
    apply find_some in Hfind. destruct Hfind as [Hin _].
    destruct (strptime value) as [date_obj|ok] eqn:Hparse;
      cbn [try_bind]; [discriminate|].
    intros [= <-].
    destruct value as [s| | |]; try (now injection Hparse).
    apply (strptime_text_encodable s); [|exact Hparse].
    now apply (Hexif img items tag s). }
  destruct items; [discriminate|exact Hscan].
Qed.

(** What the resolver returns is a date as [strftime] prints it. *)
Lemma get_exif_date_encodable (image_path date : string) :
  outcome (get_exif_date w image_path) = Return date ->
  encodable date = true.
Proof.
  assert (Hfile : outcome (file_date w image_path) = Return date ->
                  encodable date = true).
  { rewrite file_date_run. intros [= <-]. apply strftime_ymd_encodable. }
  destruct (read_exif_date w image_path) as [returned|text_encodable]
    eqn:Hread.
  - rewrite (get_exif_date_value w _ _ Hread).
    destruct returned as [date'|]; [|exact Hfile].
    intros [= <-]. revert Hread. unfold read_exif_date.
    destruct (Image_open w image_path) as [img|]; [|discriminate].
    cbn [try_call try_bind].
    destruct (im_getexif img) as [[items|]|]; cbn [try_call try_bind];
      try discriminate.
    assert (Hscan : scan_exif w items = Value (Some date') ->
                    encodable date' = true).
    { rewrite scan_exif_find.
      destruct (find (is_DateTime_item w) items) as [[tag value]|];
        [|discriminate].
      destruct (strptime value); cbn [try_bind]; [|discriminate].
      intros [= <-]. apply strftime_ymd_encodable. }
    destruct items; [discriminate|exact Hscan].
  - rewrite (get_exif_date_except w _ _ Hread), outcome_bind.
    destruct (outcome (print_text w _ _)); [exact Hfile|discriminate].
Qed.

Lemma get_exif_date_no_raise (image_path : string) :
  prints_cleanly w image_path ->
  outcome (get_exif_date w image_path) <> Raise.
Proof.
  intros Hclean.
  assert (Hfile : outcome (file_date w image_path) <> Raise)
    by now rewrite file_date_run.
  destruct (read_exif_date w image_path) as [returned|text_encodable]
    eqn:Hread.
  - rewrite (get_exif_date_value w _ _ Hread).
    destruct returned; [discriminate|exact Hfile].
  - rewrite (get_exif_date_except w _ _ Hread), outcome_bind.
    rewrite print_text_ok; [exact Hfile|].
    destruct Hclean as [->|[Hpath [_ Hexif]]]; [reflexivity|].
    rewrite Hpath, (read_exif_date_text image_path _ Hexif Hread).
    apply orb_true_r.
Qed.

(** A turn of the loop whose lines can be printed does not raise. *)
Lemma process_one_no_raise (output_dir : string) (font_size : Z) (color : RGB)
    (position image_path : string) :
  prints_cleanly w image_path ->
  outcome (process_one w output_dir font_size color position image_path)
  <> Raise.
Proof.
  intros Hclean. unfold process_one. rewrite outcome_bind.
  pose proof (get_exif_date_no_raise image_path Hclean) as Hdate.
  pose proof (get_exif_date_encodable image_path) as Htext.
  destruct (outcome (get_exif_date w image_path)) as [watermark_text|];
    [|now elim Hdate].
  rewrite outcome_bind, print_text_ok.
  2:{ destruct Hclean as [->|[_ [Hname _]]]; [reflexivity|].
      rewrite Hname, (Htext watermark_text eq_refl). apply orb_true_r. }
  cbn [outcome snd]. rewrite outcome_bind.
  destruct (add_watermark_run w image_path watermark_text font_size color
              position (path_join output_dir (basename image_path)))
    as [_ [[Ho _]|[[Ho _]|[Ho [_ Hbad]]]]]; cbv zeta in Ho; rewrite Ho;
    try discriminate.
  destruct Hclean as [Hs|[Hpath _]].
  - now rewrite Hs in Hbad.
  - rewrite Hpath in Hbad. now rewrite orb_true_r in Hbad.
Qed.

End Printing_facts.

(** X5: a run that reaches the images and can print its lines reports
    what it did.  When the dialogue gives the preferences, the output
    directory is created, and the lines about every image and the output
    directory can be printed, the run returns; its output is the count of
    images found, the dialogue, the creation of the output directory, the
    loop over the images, and a summary whose first number is exactly the
    number of files the loop saved and whose second is the number of
    images found; the loop announces every image, and the directory is
    created before anything is saved. *)
Theorem summary_counts_saved_files :
  forall (py_int : string -> option Z) (w : World) (directory : string)
         (filenames lines : list string) (said : list Output)
         (font_size : Z) (color : RGB) (position : string)
         (rest : list string),
    os_listdir w directory = Some filenames ->
    filter selected filenames <> [] ->
    get_user_preferences py_int lines
    = (said, Done (font_size, color, position), rest) ->
    os_makedirs w (path_join directory "_watermark") = true ->
    let image_files := map (path_join directory) (filter selected filenames) in
    let output_dir := path_join directory "_watermark" in
    (forall image_path,
        In image_path image_files -> prints_cleanly w image_path) ->
    negb (stdout_strict w) || encodable output_dir = true ->
    exists t,
      process_images_console py_int w directory lines
      = ((Tool (Print (MsgFound (List.length image_files))) :: said
          ++ map Tool
               (MakeDirs output_dir :: t
                ++ [Print (MsgSummary (List.length (saved_files t))
                             (List.length image_files));
                    Print (MsgOutputDir output_dir)]))%list,
         Done tt, rest) /\
      processed_names t = map basename image_files /\
      (List.length (saved_files t) <= List.length image_files)%nat.
Proof.
  intros py_int w directory filenames lines said font_size color position
    rest Hlist Hsome Hprefs Hmk image_files output_dir Hclean Hdir.
  rewrite (process_images_console_files py_int w directory filenames lines
             said font_size color position rest Hlist Hsome Hprefs).
  fold image_files. rewrite watermark_files_run. cbv zeta.
  rewrite Hmk. fold output_dir. rewrite Hdir.
  pose proof (process_each_run w output_dir font_size color position
                image_files 0%nat) as [Hsaved Hout].
  cbv zeta in Hsaved, Hout.
  destruct (process_each w output_dir font_size color position image_files 0)
    as [t [count|]]; cbn [trace outcome fst snd] in Hsaved, Hout.
  - destruct Hout as [-> [Htaken Hnames]]. exists t.
    cbn [trace outcome fst snd Nat.add]. split; [reflexivity|].
    split; [exact Hnames|].
    rewrite Hsaved, length_map, Htaken.
    etransitivity; [apply filter_length_le|].
    unfold image_files. now rewrite length_map.
  - destruct Hout as [failing [Hin Hraise]].
    now elim (process_one_no_raise w output_dir font_size color position
                failing (Hclean failing Hin)).
Qed.

Lemma summary_counts_saved_files_witness :
  exists t said,
    process_images_console sample_int sample_world "photos" ["36"; "1"; "4"]
    = ((Tool (Print (MsgFound 4)) :: said
        ++ map Tool
             (MakeDirs "photos/_watermark" :: t
              ++ [Print (MsgSummary (List.length (saved_files t)) 4);
                  Print (MsgOutputDir "photos/_watermark")]))%list,
       Done tt, []) /\
    processed_names t = ["a.jpg"; "broken.PNG"; "orig.jpg"; "PHOTO.JPG"] /\
    (List.length (saved_files t) <= 4)%nat.
Proof.
  assert (Hclean : forall image_path,
             In image_path
               (map (path_join "photos")
                  (filter selected
                     ["a.jpg"; "notes.txt"; "broken.PNG"; "orig.jpg";
                      "PHOTO.JPG"])) ->
             prints_cleanly sample_world image_path).
  { intros image_path [<-|[<-|[<-|[<-|[]]]]]; right;
      (split; [reflexivity|]); (split; [reflexivity|]);
      intros img items tag s [= <-] [= <-] Hin; cbn in Hin;
      repeat (destruct Hin as [[= _ <-]|Hin]; [reflexivity|]);
      contradiction. }
  destruct (summary_counts_saved_files sample_int sample_world "photos"
              ["a.jpg"; "notes.txt"; "broken.PNG"; "orig.jpg"; "PHOTO.JPG"]
              ["36"; "1"; "4"] _ 36 (255, 255, 255) "bottom-right" []
              eq_refl ltac:(discriminate) eq_refl eq_refl Hclean eq_refl)
    as [t Ht].
  exists t. eexists. exact Ht.
Defined.

(** ** [strip] *)

Lemma lstrip_split (text : list N) :
  exists before,
    text = (before ++ lstrip text)%list /\ blank before = true /\
    (forall c, first_char (lstrip text) = Some c -> whitespace c = false).
Proof.
  induction text as [|c r IH].
  - exists []. repeat split. discriminate.
  - cbn [lstrip]. destruct (whitespace c) eqn:Hc.
    + destruct IH as [before [Heq [Hb Hf]]].
      exists (c :: before). cbn [app blank forallb].
      rewrite <- Heq, Hc. repeat split; [exact Hb|exact Hf].
    + exists []. repeat split. cbn [first_char hd_error].
      now intros c' [= <-].
Qed.

Lemma rstrip_split (text : list N) :
  exists behind,
    text = (rstrip text ++ behind)%list /\ blank behind = true /\
    (forall c, last_char (rstrip text) = Some c -> whitespace c = false) /\
    (rstrip text = [] -> blank text = true).
Proof.
  unfold blank. induction text as [|c r IH].
  - exists []. repeat split. discriminate.
  - destruct IH as [behind [Heq [Hb [Hl He]]]]. cbn [rstrip].
    destruct (rstrip r) as [|c' r'] eqn:Hr.
    + destruct (whitespace c) eqn:Hc.
      * exists (c :: r). cbn [app forallb]. rewrite Hc, (He eq_refl).
        split; [reflexivity|]. split; [reflexivity|].
        split; [discriminate|reflexivity].
      * exists r. cbn [app].
        split; [reflexivity|]. split; [exact (He eq_refl)|].
        split; [|discriminate].
        cbn [last_char]. now intros c0 [= <-].
    + exists behind. split; [cbn [app]; now rewrite Heq at 1|].
      split; [exact Hb|]. split; [|discriminate].
      intros c0 Hc0. apply Hl. exact Hc0.
Qed.

Lemma first_char_rstrip (text : list N) (c : N) :
  first_char (rstrip text) = Some c -> first_char text = Some c.
Proof.
  destruct text as [|c' r]; [discriminate|]. cbn [first_char hd_error rstrip].
  destruct (rstrip r); [destruct (whitespace c'); [discriminate|]|]; auto.
Qed.

Lemma lstrip_fixed (text : list N) :
  (forall c, first_char text = Some c -> whitespace c = false) ->
  lstrip text = text.
Proof.
  destruct text as [|c r]; [reflexivity|]. intros H. cbn [lstrip].
  now rewrite (H c eq_refl).
Qed.

Lemma rstrip_fixed (text : list N) :
  (forall c, last_char text = Some c -> whitespace c = false) ->
  rstrip text = text.
Proof.
  induction text as [|c r IH]; [reflexivity|]. intros H. cbn [rstrip].
  destruct r as [|c' r'].
  - cbn [rstrip]. now rewrite (H c eq_refl).
  - rewrite IH; [reflexivity|]. intros c0 Hc0. apply H. exact Hc0.
Qed.

Lemma strip_trimmed (text : list N) : trimmed (rstrip (lstrip text)).
Proof.
  unfold trimmed.
  destruct (lstrip_split text) as [before [_ [_ Hf]]].
  destruct (rstrip_split (lstrip text)) as [behind [_ [_ [Hl _]]]].
  split; [|exact Hl].
  intros c Hc. apply Hf. now apply first_char_rstrip.
Qed.

(** X8: [strip] removes the white space at both ends and nothing else,
    where white space is what [str.isspace] takes for it: the ASCII
    blanks and also the no-break space and the other blanks of Unicode.
    The text, as code points, is its stripped form between a run of white
    space before and a run of white space behind; the stripped form has
    no white space at either end; a text without white space at its ends
    is left as it is, so stripping twice changes nothing.  On the line
    [nowhere] between two no-break spaces, and between ASCII blanks, the
    result is [nowhere]. *)
Theorem strip_removes_surrounding_blanks :
  (forall s : string, strip s = encode (rstrip (lstrip (decode s)))) /\
  (forall text : list N,
      let stripped := rstrip (lstrip text) in
      (exists before behind,
          text = (before ++ stripped ++ behind)%list /\
          blank before = true /\ blank behind = true) /\
      trimmed stripped /\
      (trimmed text -> stripped = text) /\
      rstrip (lstrip stripped) = stripped) /\
  whitespace 160 = true /\
  strip (String "194" (String "160" "nowhere")
         ++ String "194" (String "160" ""))
  = "nowhere" /\
  strip "  nowhere " = "nowhere".
Proof.
  split; [reflexivity|]. split; [|repeat split; vm_compute; reflexivity].
  intros text. cbv zeta.
  assert (Hfix : forall t, trimmed t -> rstrip (lstrip t) = t).
  { intros t [Hf Hl]. now rewrite (lstrip_fixed t Hf), rstrip_fixed. }
  split; [|split; [apply strip_trimmed|split; [apply Hfix|]]].
  - destruct (lstrip_split text) as [before [Hs [Hb _]]].
    destruct (rstrip_split (lstrip text)) as [behind [Hr [Hb' _]]].
    exists before, behind. rewrite <- Hr. auto.
  - apply Hfix, strip_trimmed.
Qed.

Lemma strip_removes_surrounding_blanks_witness :
  rstrip (lstrip [110; 111]%N) = [110; 111]%N.
Proof.
  apply (proj1 (proj2 (proj2 (proj1 (proj2 strip_removes_surrounding_blanks)
                                [110; 111]%N)))).
  split; intros c [= <-]; reflexivity.
Defined.

(** ** [main] *)

(** X9: [main] leaves with exit status 1, after one message, when the
    directory named on the command line does not exist, and likewise
    when it exists but is no directory, provided the message can be
    printed: standard output is not strict, or the name is valid UTF-8.
    Nothing is read from the input and the tool is not started.  Where
    standard output is strict and the name is not valid UTF-8, the
    [print] of the message raises [UnicodeEncodeError] instead, and
    [main] ends with that exception, having printed nothing. *)
Theorem main_refuses_a_bad_directory :
  forall (py_int : string -> option Z) (os_path_isdir : string -> bool)
         (w : World) (directory : string) (lines : list string),
    directory <> "" ->
    os_path_exists w directory = false \/ os_path_isdir directory = false ->
    (negb (stdout_strict w) || encodable directory = true ->
     main py_int os_path_isdir w (Some directory) lines
     = ([Say (if os_path_exists w directory
              then SayNotADirectory directory
              else SayNoSuchDirectory directory)],
        Uncaught (SystemExit 1), lines)) /\
    (negb (stdout_strict w) || encodable directory = false ->
     main py_int os_path_isdir w (Some directory) lines
     = ([], Uncaught UnicodeEncodeError, lines)).
Proof.
  intros py_int os_path_isdir w directory lines Hne Hbad.
  destruct directory as [|c r]; [now elim Hne|].
  unfold main. rewrite console_bind_ret. unfold say_text.
  split; intros ->;
    destruct (os_path_exists w (String c r)); cbn [negb];
    try reflexivity;
    (destruct Hbad as [Hbad|Hbad]; [discriminate Hbad|]);
    rewrite Hbad; reflexivity.
Qed.

Lemma main_refuses_a_bad_directory_witness :
  main sample_int sample_isdir sample_shell (Some "nowhere") ["36"]
  = ([Say (SayNoSuchDirectory "nowhere")], Uncaught (SystemExit 1), ["36"]) /\
  main sample_int sample_isdir sample_shell (Some "notes.txt") ["36"]
  = ([Say (SayNotADirectory "notes.txt")], Uncaught (SystemExit 1), ["36"]) /\
  main sample_int sample_isdir sample_shell (Some cafe_jpg) ["36"]
  = ([], Uncaught UnicodeEncodeError, ["36"]).
Proof.
  split; [|split].
  - apply (proj1 (main_refuses_a_bad_directory sample_int sample_isdir
                    sample_shell "nowhere" ["36"] ltac:(discriminate)
                    (or_introl eq_refl)));
      reflexivity.
  - apply (proj1 (main_refuses_a_bad_directory sample_int sample_isdir
                    sample_shell "notes.txt" ["36"] ltac:(discriminate)
                    (or_intror eq_refl)));
      reflexivity.
  - apply (proj2 (main_refuses_a_bad_directory sample_int sample_isdir
                    sample_shell cafe_jpg ["36"] ltac:(discriminate)
                    (or_introl eq_refl)));
      reflexivity.
Defined.



(** ** More on the tool *)

(** X11: how the font is chosen.  The first of the three font paths
    that exists decides: when it loads, the text is set in that font at
    the requested size and nothing is printed; when it does not load the
    tool does not try the paths after it but takes the default font, as
    it does when no path exists, and says so.  Choosing the font raises
    only when the default font is needed and cannot be loaded. *)
Theorem font_is_first_existing_or_default :
  forall (w : World) (font_size : Z),
    let default :=
      if pil_ok w Call_load_default
      then ([Print MsgDefaultFont], Return DefaultFont)
      else ([], Raise) in
    choose_font w font_size
    = match find (os_path_exists w) font_paths with
      | Some font_path =>
          if pil_ok w (Call_truetype font_path font_size)
          then ([], Return (TrueTypeFont font_path font_size))
          else default
      | None => default
      end.
Proof.
  intros w font_size. cbv zeta.
  unfold choose_font, font_paths.
  cbn [first_font find].
  repeat match goal with
  | |- context [os_path_exists w ?p] => destruct (os_path_exists w p)
  end;
  unfold load_default, pil;
  repeat match goal with
  | |- context [pil_ok w ?c] => destruct (pil_ok w c)
  end; reflexivity.
Qed.

(** X12: the value returned by [add_watermark] tells whether the output
    was written.  It returns [True] exactly when its trace holds one
    saved file, the output path; whenever it ends otherwise, with [False]
    or with an exception, it has saved nothing.  For an image that cannot
    be opened its whole effect is the failure line and the value
    [False], or, where standard output is strict and the path is not
    valid UTF-8, the exception of the [print] of that line. *)
Theorem add_watermark_reports_the_save :
  forall (w : World) (image_path watermark_text : string) (font_size : Z)
         (color : RGB) (position output_path : string),
    let m := add_watermark w image_path watermark_text font_size color
               position output_path in
    (outcome m = Return true <-> saved_files (trace m) = [output_path]) /\
    (outcome m <> Return true -> saved_files (trace m) = []) /\
    (Image_open w image_path = None ->
     m = if negb (stdout_strict w) || encodable image_path
         then ([Print (MsgProcessFailed image_path)], Return false)
         else ([], Raise)).
Proof.
  intros w image_path watermark_text font_size color position output_path m.
  destruct (add_watermark_run w image_path watermark_text font_size color
              position output_path) as [_ Hcase].
  fold m in Hcase.
  split; [|split].
  - destruct Hcase as [[Ho Hs]|[[Ho [Hs _]]|[Ho [Hs _]]]]; rewrite Ho, Hs;
      split; intros H; try reflexivity; discriminate H.
  - destruct Hcase as [[Ho Hs]|[[Ho [Hs _]]|[Ho [Hs _]]]]; rewrite Ho, Hs;
      intros H; try reflexivity. now elim H.
  - intros Hopen. unfold m, add_watermark, print_text. rewrite Hopen.
    destruct (negb (stdout_strict w) || encodable image_path); reflexivity.
Qed.

Lemma add_watermark_reports_the_save_witness :
  add_watermark sample_world "photos/broken.PNG" "2023-11-14" 36
    (255, 255, 255) "bottom-right" "photos/_watermark/broken.PNG"
  = ([Print (MsgProcessFailed "photos/broken.PNG")], Return false).
Proof.
  exact (proj2 (proj2 (add_watermark_reports_the_save sample_world
                         "photos/broken.PNG" "2023-11-14" 36 (255, 255, 255)
                         "bottom-right" "photos/_watermark/broken.PNG"))
           eq_refl).
Defined.

Lemma append_cancel (a b c : string) : a ++ b = a ++ c -> b = c.
Proof.
  induction a as [|x a IH]; cbn [String.append]; [auto|].
  intros [= H]. now apply IH.
Qed.

Lemma path_join_length (a b : string) :
  contains_sep b = false ->
  (String.length (path_join a b) <= String.length a + 1 + String.length b)%nat.
Proof.
  intros Hb. unfold path_join. rewrite (no_sep_not_absolute b Hb).
  destruct (String.eqb a "" || endswith a "/").
  - rewrite length_append. lia.
  - rewrite !length_append. cbn [String.length]. lia.
Qed.

Lemma output_dir_length (directory : string) :
  (String.length directory + 10
   <= String.length (path_join directory "_watermark"))%nat.
Proof.
  unfold path_join. change (String.prefix "/" "_watermark") with false.
  cbv iota.
  destruct (String.eqb directory "" || endswith directory "/").
  - rewrite length_append. cbn [String.length]. lia.
  - rewrite !length_append. cbn [String.length]. lia.
Qed.

(** X13: the tool never writes over an input, and no two inputs share
    an output.  For names that are single path components, the output
    path of one listed file is the path of no listed file, and the
    output paths of two different names differ. *)
Theorem outputs_never_collide :
  forall (directory filename other : string),
    contains_sep filename = false ->
    contains_sep other = false ->
    let output_dir := path_join directory "_watermark" in
    output_path_of output_dir (path_join directory filename)
    <> path_join directory other /\
    (filename <> other ->
     output_path_of output_dir (path_join directory filename)
     <> output_path_of output_dir (path_join directory other)).
Proof.
  intros directory filename other Hf Ho. cbv zeta.
  unfold output_path_of.
  rewrite !basename_path_join, !path_join_output_dir by assumption.
  split.
  - intros Heq.
    pose proof (f_equal String.length Heq) as Hlen.
    assert (Hbase : basename (path_join directory "_watermark"
                                ++ "/" ++ filename)
                    = basename (path_join directory other))
      by now rewrite Heq.
    cbn [String.append] in Hbase.
    rewrite basename_app_sep, basename_path_join in Hbase by assumption.
    subst other.
    pose proof (path_join_length directory filename Hf).
    pose proof (output_dir_length directory).
    rewrite !length_append in Hlen. cbn [String.length] in Hlen. lia.
  - intros Hne Heq. apply append_cancel in Heq.
    cbn [String.append] in Heq. injection Heq as Heq. now apply Hne.
Qed.

Lemma outputs_never_collide_witness :
  output_path_of "photos/_watermark" "photos/a.jpg" <> "photos/orig.jpg" /\
  (output_path_of "photos/_watermark" "photos/a.jpg"
   <> output_path_of "photos/_watermark" "photos/orig.jpg").
Proof.
  destruct (outputs_never_collide "photos" "a.jpg" "orig.jpg" eq_refl eq_refl)
    as [H1 H2].
  split; [exact H1|apply H2; discriminate].
Defined.

(** X14: what the resolver prints.  It prints the EXIF failure line,
    once, when the metadata step raised (the image cannot be opened,
    [_getexif] raises, or the first [DateTime] value does not parse) and
    the line can be printed; when the line cannot be printed, because
    standard output is strict and the path, or the part of the value
    that the parse left over, is not valid UTF-8, it prints nothing and
    raises.  An image without EXIF data or without a [DateTime] tag
    prints nothing, and neither does a failure of the modification-time
    step.  The resolver has no other effect. *)
Theorem resolver_prints_only_the_metadata_failure :
  forall (w : World) (image_path : string),
    let failure (text_encodable : bool) : M string :=
      if negb (stdout_strict w) || encodable image_path && text_encodable
      then ([Print (MsgExifFailed image_path)],
            outcome (file_date w image_path))
      else ([], Raise) in
    trace (file_date w image_path) = [] /\
    outcome (file_date w image_path) <> Raise /\
    get_exif_date w image_path
    = match Image_open w image_path with
      | None => failure true
      | Some img =>
          match im_getexif img with
          | None => failure true
          | Some None => file_date w image_path
          | Some (Some items) =>
              match find (is_DateTime_item w) items with
              | None => file_date w image_path
              | Some (_, value) =>
                  match strptime value with
                  | Value date_obj => ([], Return (strftime w date_obj))
                  | Except text_encodable => failure text_encodable
                  end
              end
          end
      end.
Proof.
  intros w image_path. cbv zeta.
  assert (Hfail : forall text_encodable,
             (print_text w (encodable image_path && text_encodable)
                (MsgExifFailed image_path) ;;
              file_date w image_path)
             = if negb (stdout_strict w)
                  || encodable image_path && text_encodable
               then ([Print (MsgExifFailed image_path)],
                     outcome (file_date w image_path))
               else ([], Raise)).
  { intros text_encodable. unfold print_text. rewrite file_date_run.
    destruct (negb (stdout_strict w)
              || encodable image_path && text_encodable); reflexivity. }
  split; [now rewrite file_date_run|].
  split; [now rewrite file_date_run|].
  destruct (Image_open w image_path) as [img|] eqn:Hopen.
  2:{ rewrite <- Hfail. apply get_exif_date_except.
      unfold read_exif_date. now rewrite Hopen. }
  destruct (im_getexif img) as [[items|]|] eqn:Hexif.
  - rewrite (get_exif_date_items w image_path img items Hopen Hexif).
    destruct (find (is_DateTime_item w) items) as [[tag value]|];
      [|reflexivity].
    destruct (strptime value); [reflexivity|apply Hfail].
  - apply (get_exif_date_value w image_path None).
    unfold read_exif_date. rewrite Hopen. cbn. now rewrite Hexif.
  - rewrite <- Hfail. apply get_exif_date_except.
    unfold read_exif_date. rewrite Hopen. cbn. now rewrite Hexif.
Qed.

(** ** More on the placement *)

(** X15: when the text fits on the canvas with the margin on both sides
    of it, the placement keeps the text box at least the margin away
    from every edge, whatever the anchor, recognised or not; so the
    background rectangle that [add_watermark] draws 5 pixels around the
    text lies on the canvas as well. *)
Theorem placement_stays_inside_the_canvas :
  forall (W H w h : Z) (position : string),
    w + 2 * margin <= W ->
    h + 2 * margin <= H ->
    let '(x, y) := calculate_watermark_position W H w h position in
    margin <= x /\ x + w <= W - margin /\
    margin <= y /\ y + h <= H - margin /\
    0 <= x - 5 /\ x + w + 5 <= W /\ 0 <= y - 5 /\ y + h + 5 <= H.
Proof.
  intros W H w h position HW HH. unfold calculate_watermark_position, margin in *.
  repeat match goal with
  | |- context [String.eqb position ?a] => destruct (String.eqb position a)
  end;
  try lia.
  pose proof (Z.div_mod (W - w) 2 ltac:(lia)).
  pose proof (Z.mod_pos_bound (W - w) 2 ltac:(lia)).
  pose proof (Z.div_mod (H - h) 2 ltac:(lia)).
  pose proof (Z.mod_pos_bound (H - h) 2 ltac:(lia)).
  lia.
Qed.

Lemma placement_stays_inside_the_canvas_witness :
  let '(x, y) := calculate_watermark_position 1000 800 120 30 "center" in
  margin <= x /\ x + 120 <= 1000 - margin /\
  margin <= y /\ y + 30 <= 800 - margin /\
  0 <= x - 5 /\ x + 120 + 5 <= 1000 /\ 0 <= y - 5 /\ y + 30 + 5 <= 800.
Proof.
  apply (placement_stays_inside_the_canvas 1000 800 120 30 "center");
    unfold margin; lia.
Defined.

(** X16: the centre anchor splits the free space evenly: on each axis
    the gap after the text box is the gap before it, or one pixel more.
    This holds for all integers, also when the text is larger than the
    canvas and the gaps are negative. *)
Theorem center_splits_the_free_space_evenly :
  forall W H w h : Z,
    let '(x, y) := calculate_watermark_position W H w h "center" in
    0 <= (W - (x + w)) - x <= 1 /\ 0 <= (H - (y + h)) - y <= 1.
Proof.
  intros W H w h. cbn.
  pose proof (Z.div_mod (W - w) 2 ltac:(lia)).
  pose proof (Z.mod_pos_bound (W - w) 2 ltac:(lia)).
  pose proof (Z.div_mod (H - h) 2 ltac:(lia)).
  pose proof (Z.mod_pos_bound (H - h) 2 ltac:(lia)).
  lia.
Qed.
